(** * Pathfinder demo: the capture-and-describe pipeline of [App.js]

    A shallow embedding of the logic of the single React component of
    [src/PathfinderApp/App.js]: the prompt resolver [getPromptForMode],
    the remote command interpreter [handleRemoteCommand], the asynchronous
    pipeline [processImage] and the button handlers that drive them.

    Modelling conventions.
    - React state ([useState]) is the record [AppState].  A handler is a
      closure over the state of the render that created it: it READS that
      snapshot and EMITS setter calls; it never sees its own writes.  A
      handler is therefore a function from the snapshot to the list of
      [Effect]s it performs, in program order.
    - Calls on the collaborators (speech sink, camera, [fetch]) are
      effects of the same list, so the order between a state write and a
      collaborator call is kept.
    - An [async] function is cut at its [await]s: [processImage_start]
      runs up to the first one, [resume] runs from one [await] to the
      next, given how the awaited promise settled.
    - JavaScript values that reach the program from outside (the photo,
      the parsed response) are [jsval]s; property reads follow the
      language (a read on [null] or [undefined] throws).
    - [console.log] and [console.error] are not modelled. *)

From Stdlib Require Import ZArith Ascii String List DecimalString Lia.
From stdpp Require Import base gmap strings list.

(** ** Strings *)

Module JsString.

(** [String.prototype.toLowerCase] on ASCII text: the letters [A-Z] are
    lowered and every other byte is returned as it is.  On text with
    characters outside ASCII the method of the engine does more (it lowers
    their letters too, by the tables of Unicode); what is stated of such
    text is stated of every lowering that [lowers_ascii_as_the_engine]. *)
Definition lower_ascii (c : ascii) : ascii :=
  let n := nat_of_ascii c in
  if (65 <=? n)%nat && (n <=? 90)%nat then ascii_of_nat (n + 32) else c.

Fixpoint toLowerCase (s : string) : string :=
  match s with
  | EmptyString => EmptyString
  | String c rest => String (lower_ascii c) (toLowerCase rest)
  end.

(** Text of ASCII characters only.  A string with other characters stands
    for the JavaScript string of which it is the UTF-8 encoding, whose
    bytes are all above 127. *)
Fixpoint ascii_text (s : string) : bool :=
  match s with
  | EmptyString => true
  | String c rest => (nat_of_ascii c <? 128)%nat && ascii_text rest
  end.

(** What every engine's [toLowerCase] does: on ASCII text it lowers the
    letters [A-Z] and changes nothing else.  Its result on other text is
    left open. *)
Definition lowers_ascii_as_the_engine (lower : string -> string) : Prop :=
  forall text : string, ascii_text text = true -> lower text = toLowerCase text.

(** The Kelvin sign, U+212A, in UTF-8; [toLowerCase] of the engine lowers
    it to [k]. *)
Definition kelvin_sign : string :=
  String (ascii_of_nat 226) (String (ascii_of_nat 132)
    (String (ascii_of_nat 170) EmptyString)).

(** A lowering that knows one letter outside ASCII: it lowers [A-Z] and
    the Kelvin sign. *)
Fixpoint lower_with_kelvin (s : string) : string :=
  match s with
  | EmptyString => EmptyString
  | String c rest =>
      match lower_with_kelvin rest with
      | String d (String e tail) =>
          if (nat_of_ascii c =? 226)%nat && (nat_of_ascii d =? 132)%nat
             && (nat_of_ascii e =? 170)%nat
          then String "k" tail
          else String (lower_ascii c) (String d (String e tail))
      | lowered => String (lower_ascii c) lowered
      end
  end.

(** [haystack.includes(needle)], used to state what a fixed text says. *)
Fixpoint includes (needle haystack : string) : bool :=
  String.prefix needle haystack
  || match haystack with
     | EmptyString => false
     | String _ rest => includes needle rest
     end.

Definition is_space (c : ascii) : bool :=
  let n := nat_of_ascii c in
  (n =? 32)%nat || ((9 <=? n)%nat && (n <=? 13)%nat).

Fixpoint trim_start (s : string) : string :=
  match s with
  | String c rest => if is_space c then trim_start rest else s
  | EmptyString => EmptyString
  end.

Fixpoint drop_trailing_space (s : string) : string :=
  match s with
  | EmptyString => EmptyString
  | String c rest =>
      match drop_trailing_space rest with
      | EmptyString => if is_space c then EmptyString else String c EmptyString
      | kept => String c kept
      end
  end.

Definition trim (s : string) : string := drop_trailing_space (trim_start s).

Definition digit_value (c : ascii) : option Z :=
  let n := nat_of_ascii c in
  if (48 <=? n)%nat && (n <=? 57)%nat then Some (Z.of_nat (n - 48)) else None.

(** Value of a non-empty run of decimal digits, [acc] being the value of
    the digits already read. *)
Fixpoint digits (s : string) (acc : Z) : option Z :=
  match s with
  | EmptyString => Some acc
  | String c rest =>
      match digit_value c with
      | Some d => digits rest (10 * acc + d)
      | None => None
      end
  end.

Definition unsigned_decimal (s : string) : option Z :=
  match s with
  | EmptyString => None
  | _ => digits s 0
  end.

(** [Number(s)] for a string, [None] standing for [NaN].  Numbers are
    modelled as integers, so the literals read are the decimal integers
    with an optional sign, between optional white space; the empty
    string is [0]. *)
Definition toNumber (s : string) : option Z :=
  match trim s with
  | EmptyString => Some 0%Z
  | String "+" rest => unsigned_decimal rest
  | String "-" rest => Z.opp <$> unsigned_decimal rest
  | t => unsigned_decimal t
  end.

(** An array index written as a property key: ["0"], or digits that do
    not start with [0]. *)
Definition array_index (key : string) : option nat :=
  match key with
  | String "0" EmptyString => Some 0%nat
  | String "0" _ => None
  | _ => Z.to_nat <$> unsigned_decimal key
  end.

End JsString.

(** ** JavaScript values and the operations the program applies to them *)

Module Js.
Import JsString.

#[local] Unset Elimination Schemes.
(** The values [JSON.parse] can produce, and [undefined].  An object is
    a finite map from keys to values (a repeated key of the JSON text
    keeps its last value, so a parsed object has one value per key).
    Numbers are the integers and strings are strings of bytes, one byte
    per character. *)
Inductive jsval : Type :=
| VUndefined
| VNull
| VBool (b : bool)
| VNum (n : Z)
| VStr (s : string)
| VArr (items : list jsval)
| VObj (fields : gmap string jsval).
#[local] Set Elimination Schemes.

(** A thrown [Error]; the program reads only its [message]. *)
Record Error : Type := mkError { error_name : string; error_message : string }.

(** Result of evaluating an expression that may throw. *)
Inductive completion (A : Type) : Type :=
| Normal (a : A)
| Throw (e : Error).
Arguments Normal {A} a.
Arguments Throw {A} e.

#[export] Instance completion_ret : MRet completion := @Normal.
#[export] Instance completion_bind : MBind completion :=
  fun A B k c => match c with Normal a => k a | Throw e => Throw e end.
#[export] Instance completion_fmap : FMap completion :=
  fun A B f c => match c with Normal a => Normal (f a) | Throw e => Throw e end.

(** How a promise settles. *)
Inductive Settlement : Type :=
| Fulfilled (value : jsval)
| Rejected (reason : Error).

Definition nullish (v : jsval) : bool :=
  match v with VUndefined | VNull => true | _ => false end.

(** The [TypeError] of a property read on [null] or [undefined]; the
    wording of the message is the engine's (Hermes'). *)
Definition TypeError_read (base : jsval) (key : string) : Error :=
  mkError "TypeError"
    ("Cannot read property '" +:+ key +:+ "' of "
     +:+ match base with VNull => "null" | _ => "undefined" end).

(** [base.key] and [base[key]].  The keys the program reads are
    [base64], [candidates], [content], [parts], [text], [length] and
    [0]; none of them is inherited from a prototype, except [length] and
    the indices of strings and arrays. *)
Definition getProp (base : jsval) (key : string) : completion jsval :=
  match base with
  | VUndefined | VNull => Throw (TypeError_read base key)
  | VBool _ | VNum _ => Normal VUndefined
  | VStr s =>
      if String.eqb key "length" then Normal (VNum (Z.of_nat (String.length s)))
      else match array_index key ≫= (fun i => String.get i s) with
           | Some c => Normal (VStr (String c EmptyString))
           | None => Normal VUndefined
           end
  | VArr items =>
      if String.eqb key "length" then Normal (VNum (Z.of_nat (length items)))
      else Normal (default VUndefined (array_index key ≫= (fun i => items !! i)))
  | VObj fields => Normal (default VUndefined (fields !! key))
  end.

(** A chain of reads, [base.k1.k2...]. *)
Fixpoint getPath (base : jsval) (keys : list string) : completion jsval :=
  match keys with
  | [] => Normal base
  | key :: rest => getProp base key ≫= (fun v => getPath v rest)
  end.

(** [ToBoolean]. *)
Definition truthy (v : jsval) : bool :=
  match v with
  | VUndefined | VNull => false
  | VBool b => b
  | VNum n => negb (n =? 0)%Z
  | VStr s => negb (String.eqb s "")
  | VArr _ | VObj _ => true
  end.

Definition string_of_Z (n : Z) : string := NilZero.string_of_int (Z.to_int n).

Definition join_comma (pieces : list string) : string :=
  match pieces with
  | [] => ""
  | first :: others => fold_left (fun acc p => acc +:+ "," +:+ p) others first
  end.

(** [String(v)]; an element of an array that is [null] or [undefined]
    is joined as the empty string. *)
Fixpoint toString (v : jsval) : string :=
  match v with
  | VUndefined => "undefined"
  | VNull => "null"
  | VBool b => if b then "true" else "false"
  | VNum n => string_of_Z n
  | VStr s => s
  | VArr items =>
      join_comma (map (fun item => if nullish item then "" else toString item) items)
  | VObj _ => "[object Object]"
  end.

(** [Number(v)], [None] standing for [NaN]. *)
Definition toNumber (v : jsval) : option Z :=
  match v with
  | VUndefined => None
  | VNull => Some 0%Z
  | VBool b => Some (if b then 1 else 0)%Z
  | VNum n => Some n
  | VStr s => JsString.toNumber s
  | VArr _ | VObj _ => JsString.toNumber (toString v)
  end.

(** [v > 0].  A value that is not a number is converted by [toNumber],
    which reads a string as an integer literal: a string that spells a
    fraction or an exponent is outside what is modelled, and is met only
    where [length] is read from an object that carries a key of that
    name. *)
Definition gt0 (v : jsval) : bool :=
  match toNumber v with
  | Some n => (0 <? n)%Z
  | None => false
  end.

(** [a && b] in the test of an [if]: [b] is evaluated only when [a] is
    truthy, so a throw in [b] is not reached otherwise. *)
Definition and_then (a b : completion bool) : completion bool :=
  match a with
  | Normal true => b
  | _ => a
  end.

(** [c1 && c2 && ... && cn]. *)
Definition all_of (conjuncts : list (completion bool)) : completion bool :=
  fold_right and_then (Normal true) conjuncts.

End Js.


(** ** The component: state, effects and handlers *)

Module App.
Import JsString Js.

(** The [useState] cells of [App]. *)
Record AppState : Type := mkAppState {
  hasPermission : option bool;
  cameraReady : bool;
  currentMode : string;
  message : jsval;
  isProcessing : bool;
  remoteControlEnabled : bool;
  serverStatus : string;
  deviceIP : string
}.

(** State of the first render. *)
Definition initialState : AppState :=
  {| hasPermission := None;
     cameraReady := false;
     currentMode := "passive";
     message := VStr "Initializing app...";
     isProcessing := false;
     remoteControlEnabled := false;
     serverStatus := "Stopped";
     deviceIP := "" |}.

(** The operating modes of the specification and the strings that stand
    for them in [currentMode]. *)
Inductive Mode : Type := Read | Navigate | Passive.

Definition mode_token (m : Mode) : string :=
  match m with
  | Read => "read"
  | Navigate => "navigate"
  | Passive => "passive"
  end.

(** The request handed to [fetch]: its target and the fields of the
    payload that [JSON.stringify] serialises into the body. *)
Record Request : Type := mkRequest {
  url : string;
  method : string;
  contentType : string;
  payload_text : string;
  payload_mimeType : string;
  payload_data : jsval
}.

(** What a handler does, in program order: calls of state setters and
    calls on the collaborators. *)
Inductive Effect : Type :=
| setCameraReady (b : bool)
| setCurrentMode (mode : string)
| setMessage (msg : jsval)
| setIsProcessing (b : bool)
| setRemoteControlEnabled (b : bool)
| setServerStatus (status : string)
| setDeviceIP (ip : string)
| Speech_stop
| Speech_speak (text : jsval)
| takePictureAsync
| fetch (req : Request)
| response_json.

(** [speak], lines 305-312. *)
Definition speak (text : jsval) : list Effect :=
  [Speech_stop; Speech_speak text].

(** [updateMessage], lines 49-54. *)
Definition updateMessage (msg : jsval) (shouldSpeak : bool) : list Effect :=
  setMessage msg :: (if shouldSpeak then speak msg else []).

(** [startServer], lines 59-80; nothing in its [try] block throws, and
    it has no [await]. *)
Definition startServer : list Effect :=
  [setServerStatus "Starting..."; setDeviceIP "192.168.1.100";
   setServerStatus "Running"]
  ++ updateMessage
       (VStr ("Remote control enabled. Other devices can send commands to: http://"
              +:+ "192.168.1.100" +:+ ":" +:+ string_of_Z 8080))
       true.

(** [stopServer], lines 85-93; [pollingInterval] is never assigned. *)
Definition stopServer : list Effect :=
  [setServerStatus "Stopped"; setRemoteControlEnabled false]
  ++ updateMessage (VStr "Remote control disabled") true.

(** [toggleRemoteControl], lines 107-114. *)
Definition toggleRemoteControl (s : AppState) : list Effect :=
  if remoteControlEnabled s then stopServer
  else setRemoteControlEnabled true :: startServer.

(** [handleRemoteCommand], lines 120-143.  The [switch] compares the
    lowered token; the echo of the default case uses the token as it
    was received. *)
Definition handleRemoteCommand (s : AppState) (command : string) : list Effect :=
  let token := toLowerCase command in
  if String.eqb token "speak" then
    speak (VStr "Hello from remote device!")
  else if String.eqb token "status" then
    speak (VStr ("Current mode is " +:+ currentMode s))
  else if String.eqb token "read" then
    setCurrentMode "read" :: speak (VStr "Mode set to read")
  else if String.eqb token "navigate" then
    setCurrentMode "navigate" :: speak (VStr "Mode set to navigate")
  else if String.eqb token "passive" then
    setCurrentMode "passive" :: speak (VStr "Mode set to passive")
  else
    speak (VStr ("Received command: " +:+ command)).

(** [handleRemoteCommand] again, with [command.toLowerCase()] computed by
    [lower]: the function of lines 120-143 for whatever the engine's
    [toLowerCase] does outside ASCII.  [handleRemoteCommand] is this
    function at the lowering of ASCII text. *)
Definition handleRemoteCommand_with (lower : string -> string)
    (s : AppState) (command : string) : list Effect :=
  let token := lower command in
  if String.eqb token "speak" then
    speak (VStr "Hello from remote device!")
  else if String.eqb token "status" then
    speak (VStr ("Current mode is " +:+ currentMode s))
  else if String.eqb token "read" then
    setCurrentMode "read" :: speak (VStr "Mode set to read")
  else if String.eqb token "navigate" then
    setCurrentMode "navigate" :: speak (VStr "Mode set to navigate")
  else if String.eqb token "passive" then
    setCurrentMode "passive" :: speak (VStr "Mode set to passive")
  else
    speak (VStr ("Received command: " +:+ command)).


(** The tokens with a [case] of their own. *)
Definition vocabulary : list string :=
  ["speak"; "status"; "read"; "navigate"; "passive"].

Definition prompt_read : string :=
  "Extract all readable text from this image. No extra commentary or explanation. Prioritize the most important text.".

Definition prompt_navigate : string :=
  "Describe the immediate environment for indoor navigation. Identify key objects, obstacles, pathways, and directional cues. Mention any furniture, doors, stairs, changes in floor level, or other significant features. Provide guidance on what's directly in front, to the left, and to the right. Highlight potential hazards or clear paths.".

Definition prompt_passive : string :=
  "Describe the scene briefly. Focus on elements that would be helpful for a visually impaired person to navigate or understand their surroundings. For example, if there's text, read it out. If there are obstacles, describe them. Be concise but informative.".

(** [getPromptForMode], lines 210-220; [passive] shares the [default]
    case. *)
Definition getPromptForMode (mode : string) : string :=
  if String.eqb mode "read" then prompt_read
  else if String.eqb mode "navigate" then prompt_navigate
  else prompt_passive.

(** *** [processImage], lines 225-299 *)

(** Where a run of [processImage] is suspended.  [Capturing] waits for
    [takePictureAsync] (line 237) and keeps the [currentMode] of the
    closure, read at line 245 once the picture is there; [AwaitingFetch]
    waits for [fetch] (line 272), [AwaitingJson] for [response.json()]
    (line 278); [Done] is a run that has returned. *)
Inductive Phase : Type :=
| Capturing (mode : string)
| AwaitingFetch
| AwaitingJson
| Done.

Definition apiKey : string := "{insert here}".

Definition apiUrl : string :=
  "https://generativelanguage.googleapis.com/v1beta/models/gemini-2.0-flash:generateContent?key="
  +:+ apiKey.

(** The arguments of [fetch], lines 250-276. *)
Definition request (prompt : string) (base64ImageData : jsval) : Request :=
  {| url := apiUrl;
     method := "POST";
     contentType := "application/json";
     payload_text := prompt;
     payload_mimeType := "image/jpeg";
     payload_data := base64ImageData |}.

Definition not_ready_message : string :=
  "Camera not ready. Please wait or refresh the app.".

Definition analyzing_message : string := "Analyzing image, please wait...".

Definition fallback_message : string :=
  "No clear description was generated. Please try again.".

(** The message of the [catch] block, line 294. *)
Definition failure_message (error : Error) : string :=
  "Failed to get description: " +:+ error_message error +:+ ". Please try again.".

(** The test of the [if] of lines 282-284, conjunct by conjunct. *)
Definition has_description (result : jsval) : completion bool :=
  all_of
    [ truthy <$> getPath result ["candidates"];
      gt0 <$> getPath result ["candidates"; "length"];
      truthy <$> getPath result ["candidates"; "0"; "content"];
      truthy <$> getPath result ["candidates"; "0"; "content"; "parts"];
      gt0 <$> getPath result ["candidates"; "0"; "content"; "parts"; "length"] ].

(** Lines 281-289: the value of [description] after the [if].  (Its
    initial value, ['Could not get a description.'], is overwritten on
    both branches.) *)
Definition describe (result : jsval) : completion jsval :=
  has_description result ≫= fun found =>
    if found : bool
    then getPath result ["candidates"; "0"; "content"; "parts"; "0"; "text"]
    else Normal (VStr fallback_message).

(** How a stretch of the [try] block ends: at the next [await], at the
    end of the block, or by a throw. *)
Inductive Stretch : Type :=
| Suspends (effects : list Effect) (next : Phase)
| Completes (effects : list Effect)
| Throws (error : Error).

(** The [try] block from the [await] of phase [ph], settled as [o], up
    to the next [await].  An [await] on a rejected promise throws the
    reason of the rejection. *)
Definition try_block (ph : Phase) (o : Settlement) : Stretch :=
  match o with
  | Rejected reason => Throws reason
  | Fulfilled value =>
      match ph with
      | Capturing mode =>
          match getProp value "base64" with
          | Throw error => Throws error
          | Normal base64ImageData =>
              let prompt := getPromptForMode mode in
              Suspends [fetch (request prompt base64ImageData)] AwaitingFetch
          end
      | AwaitingFetch => Suspends [response_json] AwaitingJson
      | AwaitingJson =>
          match describe value with
          | Throw error => Throws error
          | Normal description => Completes (updateMessage description true)
          end
      | Done => Completes []
      end
  end.

(** Lines 292-295. *)
Definition catch_block (error : Error) : list Effect :=
  updateMessage (VStr (failure_message error)) true.

(** Lines 296-298. *)
Definition finally_block : list Effect := [setIsProcessing false].

(** A run resumed in phase [ph] by the settlement [o]: what it does and
    where it stops next.  A run that has returned does nothing more. *)
Definition resume (ph : Phase) (o : Settlement) : list Effect * Phase :=
  match ph with
  | Done => ([], Done)
  | _ =>
      match try_block ph o with
      | Suspends effects next => (effects, next)
      | Completes effects => (effects ++ finally_block, Done)
      | Throws error => (catch_block error ++ finally_block, Done)
      end
  end.

(** [processImage] from its call to its first [await], lines 226-237:
    the effects, and the phase in which the run is suspended if it got
    past the guard.  [ref] tells whether [cameraRef.current] is set. *)
Definition processImage_start (s : AppState) (ref : bool)
  : list Effect * option Phase :=
  if negb (cameraReady s) || negb ref then
    (updateMessage (VStr not_ready_message) true, None)
  else
    ([setIsProcessing true]
     ++ updateMessage (VStr analyzing_message) false
     ++ [Speech_stop; takePictureAsync],
     Some (Capturing (currentMode s))).

(** *** The handlers written inline in the JSX *)

Definition dquote : string := String (ascii_of_nat 34) EmptyString.

Definition mode_button_message (m : Mode) : string :=
  match m with
  | Read =>
      "Mode set to Read. Tap " +:+ dquote +:+ "Read Document" +:+ dquote
      +:+ " to scan text."
  | Navigate =>
      "Mode set to Navigate. Tap " +:+ dquote +:+ "Get Navigation Cues" +:+ dquote
      +:+ " for indoor guidance."
  | Passive =>
      "Mode set to Passive. Tap " +:+ dquote +:+ "Describe Environment" +:+ dquote
      +:+ " for general descriptions."
  end.

(** [onPress] of the three [ModeButton]s, lines 375-396. *)
Definition onPressMode (m : Mode) : list Effect :=
  setCurrentMode (mode_token m)
  :: updateMessage (VStr (mode_button_message m)) true.

(** [onPress] of the Stop button, lines 458-462. *)
Definition onPressStop : list Effect :=
  [Speech_stop; setIsProcessing false]
  ++ updateMessage (VStr "Stopped all operations") true.

(** [onCameraReady] of the camera view, line 347. *)
Definition onCameraReady : list Effect := [setCameraReady true].

End App.

(** ** The running application: committed state, trace and pending runs *)

Module Runtime.
Import JsString Js App.

(** The state committed by React, the refs and imports the handlers read
    beside it, every effect performed so far (oldest first) and the runs
    of [processImage] started so far, each in its phase; a run is named by
    its position in [runs]. *)
Record World : Type := mkWorld {
  state : AppState;
  cameraRef_current : bool;
  Camera_loaded : bool;
  Speech_loaded : bool;
  trace : list Effect;
  runs : list Phase
}.

(** A setter call changes its cell; a call on a collaborator changes no
    cell. *)
Definition commit (s : AppState) (e : Effect) : AppState :=
  match e with
  | setCameraReady b =>
      {| hasPermission := hasPermission s; cameraReady := b;
         currentMode := currentMode s; message := message s;
         isProcessing := isProcessing s;
         remoteControlEnabled := remoteControlEnabled s;
         serverStatus := serverStatus s; deviceIP := deviceIP s |}
  | setCurrentMode mode =>
      {| hasPermission := hasPermission s; cameraReady := cameraReady s;
         currentMode := mode; message := message s;
         isProcessing := isProcessing s;
         remoteControlEnabled := remoteControlEnabled s;
         serverStatus := serverStatus s; deviceIP := deviceIP s |}
  | setMessage msg =>
      {| hasPermission := hasPermission s; cameraReady := cameraReady s;
         currentMode := currentMode s; message := msg;
         isProcessing := isProcessing s;
         remoteControlEnabled := remoteControlEnabled s;
         serverStatus := serverStatus s; deviceIP := deviceIP s |}
  | setIsProcessing b =>
      {| hasPermission := hasPermission s; cameraReady := cameraReady s;
         currentMode := currentMode s; message := message s;
         isProcessing := b;
         remoteControlEnabled := remoteControlEnabled s;
         serverStatus := serverStatus s; deviceIP := deviceIP s |}
  | setRemoteControlEnabled b =>
      {| hasPermission := hasPermission s; cameraReady := cameraReady s;
         currentMode := currentMode s; message := message s;
         isProcessing := isProcessing s;
         remoteControlEnabled := b;
         serverStatus := serverStatus s; deviceIP := deviceIP s |}
  | setServerStatus status =>
      {| hasPermission := hasPermission s; cameraReady := cameraReady s;
         currentMode := currentMode s; message := message s;
         isProcessing := isProcessing s;
         remoteControlEnabled := remoteControlEnabled s;
         serverStatus := status; deviceIP := deviceIP s |}
  | setDeviceIP ip =>
      {| hasPermission := hasPermission s; cameraReady := cameraReady s;
         currentMode := currentMode s; message := message s;
         isProcessing := isProcessing s;
         remoteControlEnabled := remoteControlEnabled s;
         serverStatus := serverStatus s; deviceIP := ip |}
  | Speech_stop | Speech_speak _ | takePictureAsync | fetch _ | response_json => s
  end.

Definition commit_all (s : AppState) (effects : list Effect) : AppState :=
  fold_left commit effects s.

(** Performing a handler's effects: they are committed in order and
    appended to the trace. *)
Definition perform (effects : list Effect) (w : World) : World :=
  {| state := commit_all (state w) effects;
     cameraRef_current := cameraRef_current w;
     Camera_loaded := Camera_loaded w;
     Speech_loaded := Speech_loaded w;
     trace := trace w ++ effects;
     runs := runs w |}.

Definition with_runs (w : World) (rs : list Phase) : World :=
  {| state := state w;
     cameraRef_current := cameraRef_current w;
     Camera_loaded := Camera_loaded w;
     Speech_loaded := Speech_loaded w;
     trace := trace w;
     runs := rs |}.

(** The early returns of lines 315-332: the buttons, the switch and the
    camera view exist only once permission is granted. *)
Definition main_ui (s : AppState) : bool :=
  match hasPermission s with
  | Some true => true
  | _ => false
  end.

(** The [disabled] prop of the capture button, line 437. *)
Definition capture_disabled (w : World) : bool :=
  negb (cameraReady (state w)) || isProcessing (state w)
  || negb (Camera_loaded w) || negb (Speech_loaded w).

(** What can happen to the application: a press on one of its controls,
    the camera becoming ready, a remote command handed to
    [handleRemoteCommand], or the promise awaited by run [run] settling. *)
Inductive Event : Type :=
| PressCapture
| PressStop
| PressMode (m : Mode)
| ToggleRemote
| CameraBecomesReady
| RemoteCommand (command : string)
| Settle (run : nat) (o : Settlement).

(** A call of [processImage] with the snapshot [state w]. *)
Definition call_processImage (w : World) : World :=
  let '(effects, started) := processImage_start (state w) (cameraRef_current w) in
  perform effects
    (with_runs w (runs w ++ match started with Some ph => [ph] | None => [] end)).

(** Run [run] resumes with the settlement [o]; there is nothing to resume
    for a run that was never started. *)
Definition settle (run : nat) (o : Settlement) (w : World) : World :=
  match runs w !! run with
  | None => w
  | Some ph =>
      let '(effects, next) := resume ph o in
      perform effects (with_runs w (<[run := next]> (runs w)))
  end.

(** One event, handled by the closures of the current render.  A press on
    a control that is not rendered, or on the disabled capture button,
    reaches no handler.  [handleRemoteCommand] has no caller in the
    source: [RemoteCommand] stands for a call of the function of the
    current render, made once the effects of the event before it are
    committed and rendered.  Calls that follow one another without a
    render in between are [on_one_closure]. *)
Definition step (w : World) (ev : Event) : World :=
  match ev with
  | PressCapture =>
      if main_ui (state w) && negb (capture_disabled w)
      then call_processImage w else w
  | PressStop =>
      if main_ui (state w) then perform onPressStop w else w
  | PressMode m =>
      if main_ui (state w) then perform (onPressMode m) w else w
  | ToggleRemote =>
      if main_ui (state w) then perform (toggleRemoteControl (state w)) w else w
  | CameraBecomesReady =>
      if main_ui (state w) && Camera_loaded w then perform onCameraReady w else w
  | RemoteCommand command =>
      perform (handleRemoteCommand (state w) command) w
  | Settle run o => settle run o w
  end.

Definition steps (w : World) (events : list Event) : World :=
  fold_left step events w.

(** A run taken through a sequence of settlements of its own: all it
    does, and the phase it is left in. *)
Fixpoint drive (ph : Phase) (settlements : list Settlement) : list Effect * Phase :=
  match settlements with
  | [] => ([], ph)
  | o :: later =>
      let '(effects, next) := resume ph o in
      let '(more, final) := drive next later in
      (effects ++ more, final)
  end.

(** The three ways the handling of a settlement can go: the run moves to
    its next [await] after a call on the backend, or it ends after
    handing one message to [updateMessage] and clearing the flag. *)
Inductive Resumption : Phase -> list Effect * Phase -> Prop :=
| resumption_fetch mode req :
    Resumption (Capturing mode) ([fetch req], AwaitingFetch)
| resumption_json :
    Resumption AwaitingFetch ([response_json], AwaitingJson)
| resumption_ends ph msg :
    Resumption ph (updateMessage msg true ++ finally_block, Done).

(** *** Reading a trace *)

Definition is_speak (e : Effect) : bool :=
  match e with Speech_speak _ => true | _ => false end.

Definition is_fetch (e : Effect) : bool :=
  match e with fetch _ => true | _ => false end.

Definition is_capture (e : Effect) : bool :=
  match e with takePictureAsync => true | _ => false end.

Definition is_backend_call (e : Effect) : bool :=
  match e with fetch _ | response_json => true | _ => false end.

Definition is_clear_processing (e : Effect) : bool :=
  match e with setIsProcessing false => true | _ => false end.

Definition is_raise_processing (e : Effect) : bool :=
  match e with setIsProcessing true => true | _ => false end.

Definition is_setMessage (e : Effect) : bool :=
  match e with setMessage _ => true | _ => false end.

(** A call on the speech sink or a change of mode. *)
Definition speech_or_mode (e : Effect) : bool :=
  match e with
  | Speech_stop | Speech_speak _ | setCurrentMode _ => true
  | _ => false
  end.

(** Number of effects of a kind. *)
Fixpoint count (p : Effect -> bool) (effects : list Effect) : nat :=
  match effects with
  | [] => 0
  | e :: rest => (if p e then 1 else 0) + count p rest
  end.

(** The texts handed to [Speech.speak], oldest first. *)
Definition utterances (effects : list Effect) : list jsval :=
  omap (fun e => match e with Speech_speak text => Some text | _ => None end) effects.

(** What the speech sink is left saying: the text of the last
    [Speech.speak] if no [Speech.stop] came after it. *)
Definition speaking (effects : list Effect) : option jsval :=
  fold_left
    (fun current e =>
       match e with
       | Speech_stop => None
       | Speech_speak text => Some text
       | _ => current
       end)
    effects None.

End Runtime.

(** ** The backend response as the specification reads it *)

Module Response.
Import JsString Js App Runtime.

(** The candidates of a response: the elements of its [candidates], when
    the response is an object carrying such a list. *)
Definition candidates_of (result : jsval) : list jsval :=
  match result with
  | VObj fields =>
      match fields !! "candidates" with
      | Some (VArr candidates) => candidates
      | _ => []
      end
  | _ => []
  end.

(** The parts of a candidate: the elements of [content.parts]. *)
Definition parts_of (candidate : jsval) : list jsval :=
  match candidate with
  | VObj fields =>
      match fields !! "content" with
      | Some (VObj content) =>
          match content !! "parts" with
          | Some (VArr parts) => parts
          | _ => []
          end
      | _ => []
      end
  | _ => []
  end.

(** The text carried by a part, if it carries one. *)
Definition text_of (part : jsval) : option string :=
  match part with
  | VObj fields =>
      match fields !! "text" with
      | Some (VStr text) => Some text
      | _ => None
      end
  | _ => None
  end.

(** Every text of every candidate, in order. *)
Definition candidate_texts (result : jsval) : list string :=
  flat_map (fun candidate => omap text_of (parts_of candidate)) (candidates_of result).

(** "The structured result contains at least one non-empty candidate
    text". *)
Definition has_nonempty_candidate_text (result : jsval) : bool :=
  existsb (fun text => negb (String.eqb text "")) (candidate_texts result).

(** "The first candidate's first text part": the first part of the first
    candidate. *)
Definition first_part (result : jsval) : option jsval :=
  head (candidates_of result) ≫= fun candidate => head (parts_of candidate).

(** A field that is missing or [null]. *)
Inductive Absent : option jsval -> Prop :=
| absent_missing : Absent None
| absent_null : Absent (Some VNull).

(** A response object without a first part to read: no candidates at
    all, or a first candidate without content, or a content without
    parts. *)
Inductive NoDescription : jsval -> Prop :=
| no_candidates fields :
    Absent (fields !! "candidates") ->
    NoDescription (VObj fields)
| zero_candidates fields :
    fields !! "candidates" = Some (VArr []) ->
    NoDescription (VObj fields)
| no_content fields candidate others :
    fields !! "candidates" = Some (VArr (VObj candidate :: others)) ->
    Absent (candidate !! "content") ->
    NoDescription (VObj fields)
| no_parts fields candidate others content :
    fields !! "candidates" = Some (VArr (VObj candidate :: others)) ->
    candidate !! "content" = Some (VObj content) ->
    Absent (content !! "parts") ->
    NoDescription (VObj fields)
| zero_parts fields candidate others content :
    fields !! "candidates" = Some (VArr (VObj candidate :: others)) ->
    candidate !! "content" = Some (VObj content) ->
    content !! "parts" = Some (VArr []) ->
    NoDescription (VObj fields).

(** The claim about the response, at one response: when some candidate
    text is non-empty, the text of the first part of the first candidate
    is what is spoken; otherwise the fallback message is. *)
Definition described_as_claimed (result : jsval) : Prop :=
  let spoken := utterances (fst (resume AwaitingJson (Fulfilled result))) in
  if has_nonempty_candidate_text result
  then exists part text,
         first_part result = Some part
         /\ text_of part = Some text
         /\ spoken = [VStr text]
  else spoken = [VStr fallback_message].

(** *** Sample responses *)

Definition candidate_with_text (text : jsval) : jsval :=
  VObj {[ "content" := VObj {[ "parts" := VArr [VObj {[ "text" := text ]}] ]} ]}.

(** [{candidates: [{content: {parts: [{text: text}]}}]}] *)
Definition response_with_text (text : string) : jsval :=
  VObj {[ "candidates" := VArr [candidate_with_text (VStr text)] ]}.

(** [{candidates: []}] *)
Definition response_zero_candidates : jsval :=
  VObj {[ "candidates" := VArr [] ]}.

(** [{candidates: [{finishReason: "SAFETY"}, {content: {parts: [{text:
    "Exit sign ahead"}]}}]}]: the text is in the second candidate. *)
Definition response_text_in_second_candidate : jsval :=
  VObj {[ "candidates" :=
            VArr [VObj {[ "finishReason" := VStr "SAFETY" ]};
                  candidate_with_text (VStr "Exit sign ahead")] ]}.

(** [{candidates: [null]}] *)
Definition response_null_candidate : jsval :=
  VObj {[ "candidates" := VArr [VNull] ]}.

End Response.

(** ** Sample worlds *)

Module Scenario.
Import JsString Js App Runtime Response.

(** Permission granted, camera ready, nothing in flight. *)
Definition ready_state (mode : string) : AppState :=
  {| hasPermission := Some true;
     cameraReady := true;
     currentMode := mode;
     message := VStr "Camera and Speech permissions granted. Select a mode and tap the button.";
     isProcessing := false;
     remoteControlEnabled := false;
     serverStatus := "Stopped";
     deviceIP := "" |}.

Definition ready_world (mode : string) : World :=
  {| state := ready_state mode;
     cameraRef_current := true;
     Camera_loaded := true;
     Speech_loaded := true;
     trace := [];
     runs := [] |}.

(** The camera view is mounted but has not reported ready yet. *)
Definition loading_world : World :=
  {| state :=
       {| hasPermission := Some true;
          cameraReady := false;
          currentMode := "passive";
          message := VStr "Camera and Speech permissions granted. Select a mode and tap the button.";
          isProcessing := false;
          remoteControlEnabled := false;
          serverStatus := "Stopped";
          deviceIP := "" |};
     cameraRef_current := true;
     Camera_loaded := true;
     Speech_loaded := true;
     trace := [];
     runs := [] |}.

Definition photo : jsval := VObj {[ "base64" := VStr "/9j/4AAQSkZJRg==" ]}.

(** The [Response] object [fetch] resolves with; the program reads
    nothing of it and calls its [json] method. *)
Definition http_response : jsval := VObj ∅.

Definition network_error : Error := mkError "TypeError" "Network request failed".

Definition camera_error : Error := mkError "Error" "Camera is not running".

(** A capture in passive mode is waiting for the body of the response. *)
Definition awaiting_result_world : World :=
  steps (ready_world "passive")
    [PressCapture; Settle 0 (Fulfilled photo); Settle 0 (Fulfilled http_response)].

End Scenario.

(** ** What is on the screen *)

Module View.
Import JsString Js App Runtime.

(** The text of the capture button, lines 445-449. *)
Definition captureButtonText (mode : string) : string :=
  if String.eqb mode "read" then "Read Document"
  else if String.eqb mode "navigate" then "Get Navigation Cues"
  else "Describe Environment".

(** Inside the capture button: the activity indicator while processing,
    the text otherwise (lines 439-452). *)
Inductive CaptureContent : Type :=
| Spinner
| Label (text : string).

(** The camera area, lines 342-364: the camera view, with its loading
    overlay until the camera is ready, or the "Camera Not Available"
    panel. *)
Inductive CameraArea : Type :=
| Preview (loadingOverlay : bool)
| NotAvailable.

(** The parts of the main screen that depend on the state. *)
Record MainView : Type := mkMainView {
  camera_area : CameraArea;
  read_active : bool;
  navigate_active : bool;
  passive_active : bool;
  remote_switch : bool;
  remote_info : option (string * string);
  capture_is_disabled : bool;
  capture_content : CaptureContent;
  message_box : jsval
}.

(** The three returns of [App], lines 315-475. *)
Inductive Screen : Type :=
| Requesting (msg : jsval)
| Refused (msg : jsval)
| Main (view : MainView).

Definition render (w : World) : Screen :=
  let s := state w in
  match hasPermission s with
  | None => Requesting (message s)
  | Some false => Refused (message s)
  | Some true =>
      Main
        {| camera_area :=
             if Camera_loaded w then Preview (negb (cameraReady s)) else NotAvailable;
           read_active := String.eqb (currentMode s) "read";
           navigate_active := String.eqb (currentMode s) "navigate";
           passive_active := String.eqb (currentMode s) "passive";
           remote_switch := remoteControlEnabled s;
           remote_info :=
             if remoteControlEnabled s
             then Some (if String.eqb (deviceIP s) "" then "Loading..." else deviceIP s,
                        serverStatus s)
             else None;
           capture_is_disabled := capture_disabled w;
           capture_content :=
             if isProcessing s then Spinner else Label (captureButtonText (currentMode s));
           message_box := message s |}
  end.

End View.

(** ** The mount effect: [requestPermissions], lines 146-202 *)

Module Mount.
Import JsString Js App Runtime.

(** The effects of [requestPermissions]: those a handler has, the setter
    of [hasPermission], the permission request and the timer of the
    [finally] block, whose callback speaks the [permissionMessage] it
    closes over. *)
Inductive MountEffect : Type :=
| of_handler (e : Effect)
| setHasPermission (granted : bool)
| requestCameraPermissionsAsync
| setTimeout (permissionMessage : string) (delay : Z).

(** Where the mount effect stands: not run yet, waiting for the
    permission request, waiting for its timer, or over. *)
Inductive MountPhase : Type :=
| NotMounted
| AwaitingPermission
| AwaitingTimer (permissionMessage : string)
| Announced.

Definition requesting_message : string :=
  "Requesting camera and speech permissions...".

Definition module_missing_message : string :=
  "Camera module not found or not functional. Please ensure all Expo packages are installed correctly.".

Definition granted_message : string :=
  "Camera and Speech permissions granted. Select a mode and tap the button.".

(** [v === s] for a string literal [s]. *)
Definition strict_eq_string (v : jsval) (s : string) : bool :=
  match v with
  | VStr t => String.eqb t s
  | _ => false
  end.

(** Lines 176-186: the message built when a permission is missing. *)
Definition denial_message (cameraGranted speechGranted : bool) : string :=
  let permissionMessage := "" in
  let permissionMessage :=
    if negb cameraGranted
    then permissionMessage
         +:+ "Camera permission not granted. Please enable it in settings. "
    else permissionMessage in
  let permissionMessage :=
    if negb speechGranted
    then permissionMessage
         +:+ "Speech permission not granted. Please enable it in settings (look for Microphone access for Expo Go or your app)."
    else permissionMessage in
  if String.eqb permissionMessage ""
  then "Some permissions were not granted. Please check app settings."
  else permissionMessage.

(** Lines 192-198. *)
Definition finally_timer (permissionMessage : string) : list MountEffect :=
  [setTimeout permissionMessage 500].

(** [requestPermissions] up to its [await], or to its early return.
    [cameraApi] is the test of line 156, [Camera && typeof
    Camera.requestCameraPermissionsAsync === 'function']; the early return
    of line 165 leaves through the [finally] block. *)
Definition requestPermissions_start (cameraApi : bool) : list MountEffect * MountPhase :=
  let first := map of_handler (updateMessage (VStr requesting_message) false) in
  if cameraApi then
    (first ++ [requestCameraPermissionsAsync], AwaitingPermission)
  else
    (first
     ++ [setHasPermission false]
     ++ map of_handler (updateMessage (VStr module_missing_message) true)
     ++ finally_timer module_missing_message,
     AwaitingTimer module_missing_message).

(** Lines 157-187, after the [await]: the setter calls and the final
    [permissionMessage], or a throw. *)
Definition after_permission (o : Settlement) : completion (list MountEffect * string) :=
  match o with
  | Rejected reason => Throw reason
  | Fulfilled cameraStatus =>
      getProp cameraStatus "status" ≫= fun status =>
        let cameraGranted := strict_eq_string status "granted" in
        let speechGranted := true in
        if cameraGranted && speechGranted
        then Normal ([setHasPermission true; of_handler (setCurrentMode "passive")],
                     granted_message)
        else Normal ([setHasPermission false],
                     denial_message cameraGranted speechGranted)
  end.

(** Lines 188-191. *)
Definition permission_error_message (error : Error) : string :=
  "Error requesting permissions: " +:+ error_message error
  +:+ ". Please check app settings.".

(** [requestPermissions] from its [await] to its end. *)
Definition resume_permission (o : Settlement) : list MountEffect * MountPhase :=
  let '(effects, permissionMessage) :=
    match after_permission o with
    | Normal done => done
    | Throw error => ([setHasPermission false], permission_error_message error)
    end in
  (effects ++ finally_timer permissionMessage, AwaitingTimer permissionMessage).

(** The callback of the timer, line 196. *)
Definition timer_callback (permissionMessage : string) : list Effect :=
  updateMessage (VStr permissionMessage) true.

Definition is_timer (e : MountEffect) : bool :=
  match e with setTimeout _ _ => true | _ => false end.

Definition is_setHasPermission (e : MountEffect) : bool :=
  match e with setHasPermission _ => true | _ => false end.

(** The effects a handler could have had. *)
Definition handler_effects (effects : list MountEffect) : list Effect :=
  omap (fun e => match e with of_handler h => Some h | _ => None end) effects.

End Mount.

(** ** A session: the mount effect and the events of the screen *)

Module Session.
Import JsString Js App Runtime Mount.

Record Session : Type := mkSession {
  world : World;
  mount : MountPhase
}.

Definition with_hasPermission (w : World) (granted : bool) : World :=
  {| state :=
       {| hasPermission := Some granted;
          cameraReady := cameraReady (state w);
          currentMode := currentMode (state w);
          message := message (state w);
          isProcessing := isProcessing (state w);
          remoteControlEnabled := remoteControlEnabled (state w);
          serverStatus := serverStatus (state w);
          deviceIP := deviceIP (state w) |};
     cameraRef_current := cameraRef_current w;
     Camera_loaded := Camera_loaded w;
     Speech_loaded := Speech_loaded w;
     trace := trace w;
     runs := runs w |}.

Definition perform_mount_effect (w : World) (e : MountEffect) : World :=
  match e with
  | of_handler h => perform [h] w
  | setHasPermission granted => with_hasPermission w granted
  | requestCameraPermissionsAsync | setTimeout _ _ => w
  end.

Definition perform_mount (effects : list MountEffect) (w : World) : World :=
  fold_left perform_mount_effect effects w.

(** The component mounts (the permission request being a function or
    not), the permission request settles, the timer fires, or an event of
    the screen happens. *)
Inductive SessionEvent : Type :=
| ComponentMounts (requestIsFunction : bool)
| PermissionSettles (o : Settlement)
| TimerFires
| OnScreen (ev : Event).

Definition session_step (s : Session) (ev : SessionEvent) : Session :=
  match ev, mount s with
  | ComponentMounts requestIsFunction, NotMounted =>
      let '(effects, next) :=
        requestPermissions_start (Camera_loaded (world s) && requestIsFunction) in
      {| world := perform_mount effects (world s); mount := next |}
  | PermissionSettles o, AwaitingPermission =>
      let '(effects, next) := resume_permission o in
      {| world := perform_mount effects (world s); mount := next |}
  | TimerFires, AwaitingTimer permissionMessage =>
      {| world := perform (timer_callback permissionMessage) (world s);
         mount := Announced |}
  | OnScreen ev, phase => {| world := step (world s) ev; mount := phase |}
  | _, _ => s
  end.

Definition session_steps (s : Session) (events : list SessionEvent) : Session :=
  fold_left session_step events s.

(** The application before its first effect: the state of the first
    render, nothing performed, nothing in flight. *)
Definition launch (ref camera speech : bool) : Session :=
  {| world :=
       {| state := initialState;
          cameraRef_current := ref;
          Camera_loaded := camera;
          Speech_loaded := speech;
          trace := [];
          runs := [] |};
     mount := NotMounted |}.

(** The permission request resolved with [{status: 'granted'}], with
    [{status: 'denied'}]. *)
Definition status_granted : jsval := VObj {[ "status" := VStr "granted" ]}.

Definition status_denied : jsval := VObj {[ "status" := VStr "denied" ]}.

(** A session in which permission was granted, the camera became ready
    and the capture button was pressed. *)
Definition capturing_session : Session :=
  session_steps (launch true true true)
    [ComponentMounts true; PermissionSettles (Fulfilled status_granted); TimerFires;
     OnScreen CameraBecomesReady; OnScreen PressCapture].

(** A session in which permission was denied and the user taps on. *)
Definition refused_session : Session :=
  session_steps (launch true true true)
    [ComponentMounts true; PermissionSettles (Fulfilled status_denied); TimerFires;
     OnScreen PressCapture; OnScreen CameraBecomesReady; OnScreen ToggleRemote].

(** Whether the mount effect still waits for the permission request. *)
Definition undecided (phase : MountPhase) : bool :=
  match phase with
  | NotMounted | AwaitingPermission => true
  | AwaitingTimer _ | Announced => false
  end.

(** Two runs in flight: Stop was pressed while the first was waiting for
    the body of its response, and the capture button was pressed again. *)
Definition two_runs_world : World :=
  steps Scenario.awaiting_result_world [PressStop; PressCapture].

(** *** What the properties speak of *)

(** The permission request resolved with an object whose [status] is the
    string [granted]. *)
Definition resolves_granted (o : Settlement) : Prop :=
  exists fields : gmap string jsval,
    o = Fulfilled (VObj fields) /\ fields !! "status" = Some (VStr "granted").

(** An event that can change the mode and nothing else of the state but
    the message: a press on a mode button, a remote command. *)
Definition selects_mode (ev : Event) : bool :=
  match ev with
  | PressMode _ | RemoteCommand _ => true
  | _ => false
  end.

(** A run that has not returned. *)
Definition pending (ph : Phase) : bool :=
  match ph with Done => false | _ => true end.

Definition modes : list string := ["read"; "navigate"; "passive"].

Definition mode_is_known (mode : string) : bool :=
  existsb (String.eqb mode) modes.

(** A command whose token, lowered, is the name of a mode. *)
Definition sets_mode (command : string) : bool :=
  mode_is_known (toLowerCase command).

(** Every [Speech.speak] comes right after a [Speech.stop];
    [after_stop] tells whether the effect before the list was one. *)
Fixpoint cancel_then_speak (after_stop : bool) (effects : list Effect) : bool :=
  match effects with
  | [] => true
  | Speech_stop :: rest => cancel_then_speak true rest
  | Speech_speak _ :: rest => after_stop && cancel_then_speak false rest
  | _ :: rest => cancel_then_speak false rest
  end.

Definition is_json (e : Effect) : bool :=
  match e with response_json => true | _ => false end.

(** The requests handed to [fetch], oldest first. *)
Definition requests (effects : list Effect) : list Request :=
  omap (fun e => match e with fetch req => Some req | _ => None end) effects.

(** What holds of the world of every session that started with
    [launch]. *)
Record WorldInvariant (w : World) : Prop := mkWorldInvariant {
  nothing_without_permission :
    hasPermission (state w) <> Some true ->
    isProcessing (state w) = false
    /\ cameraReady (state w) = false
    /\ remoteControlEnabled (state w) = false
    /\ runs w = []
    /\ count is_capture (trace w) = 0
    /\ count is_backend_call (trace w) = 0;
  processing_has_a_run :
    isProcessing (state w) = true ->
    cameraReady (state w) = true
    /\ existsb pending (runs w) = true;
  mode_known :
    mode_is_known (currentMode (state w)) = true;
  remote_enabled_running :
    remoteControlEnabled (state w) = true ->
    serverStatus (state w) = "Running"
    /\ deviceIP (state w) = "192.168.1.100";
  remote_disabled_stopped :
    remoteControlEnabled (state w) = false ->
    serverStatus (state w) = "Stopped";
  speech_cancelled_first :
    cancel_then_speak false (trace w) = true
}.

(** What holds of every session that started with [launch]: until the
    permission request has settled [hasPermission] is [null], and the
    world keeps its invariant. *)
Definition Invariant (s : Session) : Prop :=
  (mount s = NotMounted \/ mount s = AwaitingPermission ->
   hasPermission (state (world s)) = None)
  /\ WorldInvariant (world s).

(** The effects an event of the screen can have in world [w], with the
    runs it leaves. *)
Inductive Outcome (w : World) : list Effect -> list Phase -> Prop :=
| outcome_nothing :
    Outcome w [] (runs w)
| outcome_message msg :
    Outcome w (updateMessage msg true) (runs w)
| outcome_start :
    main_ui (state w) = true ->
    cameraReady (state w) = true ->
    Outcome w
      ([setIsProcessing true] ++ updateMessage (VStr analyzing_message) false
       ++ [Speech_stop; takePictureAsync])
      (runs w ++ [Capturing (currentMode (state w))])
| outcome_stop :
    main_ui (state w) = true ->
    Outcome w onPressStop (runs w)
| outcome_mode m :
    main_ui (state w) = true ->
    Outcome w (onPressMode m) (runs w)
| outcome_remote_on :
    main_ui (state w) = true ->
    Outcome w (setRemoteControlEnabled true :: startServer) (runs w)
| outcome_remote_off :
    main_ui (state w) = true ->
    Outcome w stopServer (runs w)
| outcome_camera_ready :
    main_ui (state w) = true ->
    Outcome w onCameraReady (runs w)
| outcome_speak text :
    Outcome w (speak text) (runs w)
| outcome_command_mode mode text :
    mode_is_known mode = true ->
    Outcome w (setCurrentMode mode :: speak text) (runs w)
| outcome_fetch run mode req :
    runs w !! run = Some (Capturing mode) ->
    Outcome w [fetch req] (<[run := AwaitingFetch]> (runs w))
| outcome_json run :
    runs w !! run = Some AwaitingFetch ->
    Outcome w [response_json] (<[run := AwaitingJson]> (runs w))
| outcome_end run ph msg :
    runs w !! run = Some ph ->
    Outcome w (updateMessage msg true ++ finally_block) (<[run := Done]> (runs w)).

End Session.

(** * Properties *)

(** ** Prompt resolver *)

Module PromptResolver.
Import JsString Js App.

Lemma getPromptForMode_cases (mode : string) :
  getPromptForMode mode = prompt_read
  \/ getPromptForMode mode = prompt_navigate
  \/ getPromptForMode mode = prompt_passive.
Proof.
  unfold getPromptForMode.
  destruct (String.eqb mode "read"); [now left|].
  destruct (String.eqb mode "navigate"); [right; now left | right; now right].
Qed.

(** A mode string without a [case] of its own gets the passive prompt. *)
Lemma getPromptForMode_default (mode : string) :
  mode <> "read" -> mode <> "navigate" -> getPromptForMode mode = prompt_passive.
Proof.
  intros Hr Hn. unfold getPromptForMode.
  apply String.eqb_neq in Hr, Hn. now rewrite Hr, Hn.
Qed.

(** C9.  The prompt resolver is a total function of the mode alone: it
    returns a non-empty text for every mode string, and for each of the
    three modes the fixed text of that mode.  The read prompt asks to
    extract all readable text with no extra commentary; the navigate
    prompt asks for obstacles, pathways, doors and stairs and for what is
    in front, to the left and to the right; the passive prompt asks for a
    brief, concise description of what helps to navigate. *)
Theorem getPromptForMode_total_fixed :
  (forall mode : string, getPromptForMode mode <> "")
  /\ (forall m : Mode, (0 < String.length (getPromptForMode (mode_token m)))%nat)
  /\ forallb (fun phrase => includes phrase (getPromptForMode (mode_token Read)))
       ["Extract all readable text"; "No extra commentary"] = true
  /\ forallb (fun phrase => includes phrase (getPromptForMode (mode_token Navigate)))
       ["obstacles"; "pathways"; "doors"; "stairs";
        "directly in front"; "to the left"; "to the right"] = true
  /\ forallb (fun phrase => includes phrase (getPromptForMode (mode_token Passive)))
       ["Describe the scene briefly"; "navigate"; "concise"] = true
  /\ getPromptForMode (mode_token Read) <> getPromptForMode (mode_token Navigate)
  /\ getPromptForMode (mode_token Navigate) <> getPromptForMode (mode_token Passive)
  /\ getPromptForMode (mode_token Read) <> getPromptForMode (mode_token Passive).
Proof.
  split.
  { intros mode.
    destruct (getPromptForMode_cases mode) as [-> | [-> | ->]]; discriminate. }
  split.
  { intros []; vm_compute; lia. }
  repeat split; try (vm_compute; reflexivity); vm_compute; discriminate.
Qed.

End PromptResolver.

(** ** Traces and committed state *)

Module TraceFacts.
Import JsString Js App Runtime.

Lemma count_app (p : Effect -> bool) (e1 e2 : list Effect) :
  count p (e1 ++ e2) = count p e1 + count p e2.
Proof.
  induction e1 as [|e rest IH]; cbn [count app]; [reflexivity|].
  rewrite IH. lia.
Qed.

Lemma count_backend_calls (p : Effect -> bool) (calls : list Effect) :
  (forall e, is_backend_call e = true -> p e = false) ->
  forallb is_backend_call calls = true ->
  count p calls = 0.
Proof.
  intros Hp. induction calls as [|e rest IH]; cbn [forallb count]; [reflexivity|].
  intros [He Hrest]%andb_prop. rewrite (Hp e He), IH by assumption. reflexivity.
Qed.

Lemma commit_all_app (s : AppState) (e1 e2 : list Effect) :
  commit_all s (e1 ++ e2) = commit_all (commit_all s e1) e2.
Proof. unfold commit_all. apply fold_left_app. Qed.

Lemma commit_backend_calls (s : AppState) (calls : list Effect) :
  forallb is_backend_call calls = true -> commit_all s calls = s.
Proof.
  revert s. induction calls as [|e rest IH]; intros s; cbn [forallb]; [reflexivity|].
  intros [He Hrest]%andb_prop. unfold commit_all in *. cbn [fold_left].
  destruct e; try discriminate He; apply IH; assumption.
Qed.

Lemma speaking_speak (before : list Effect) (text : jsval) :
  speaking (before ++ speak text) = Some text.
Proof. unfold speaking. rewrite fold_left_app. reflexivity. Qed.

Lemma isProcessing_after_set (s : AppState) (before : list Effect) (b : bool) :
  isProcessing (commit_all s (before ++ [setIsProcessing b])) = b.
Proof. now rewrite commit_all_app. Qed.

Lemma speaking_app_quiet (before after : list Effect) :
  forallb (fun e => negb (is_speak e || match e with Speech_stop => true | _ => false end)) after = true ->
  speaking (before ++ after) = speaking before.
Proof.
  unfold speaking. rewrite fold_left_app.
  generalize (fold_left
    (fun current e =>
       match e with
       | Speech_stop => None
       | Speech_speak text => Some text
       | _ => current
       end) before None) as current.
  induction after as [|e rest IH]; intros current; cbn [forallb fold_left]; [reflexivity|].
  intros [He Hrest]%andb_prop.
  destruct e; try discriminate He; apply IH; assumption.
Qed.

End TraceFacts.

(** ** Remote command interpreter *)

Module RemoteCommands.
Import JsString Js App Runtime Scenario TraceFacts.

(** *** The interpreter under the lowering of any engine *)

Lemma handleRemoteCommand_at_ascii_lowering (s : AppState) (command : string) :
  handleRemoteCommand s command = handleRemoteCommand_with toLowerCase s command.
Proof. reflexivity. Qed.

Lemma toLowerCase_lowers_ascii : lowers_ascii_as_the_engine toLowerCase.
Proof. intros text _. reflexivity. Qed.

Lemma lower_with_kelvin_lowers_ascii : lowers_ascii_as_the_engine lower_with_kelvin.
Proof.
  intros text. induction text as [|c rest IH]; [reflexivity|].
  cbn [ascii_text]. intros [Hc Hrest]%andb_prop.
  cbn [lower_with_kelvin toLowerCase]. rewrite (IH Hrest).
  assert ((nat_of_ascii c =? 226)%nat = false) as Hnot.
  { apply Nat.ltb_lt in Hc. apply Nat.eqb_neq. lia. }
  destruct (toLowerCase rest) as [|d [|e tail]]; try reflexivity.
  now rewrite Hnot.
Qed.

(** The words of the vocabulary are lowered to themselves. *)
Lemma lower_of_vocabulary (lower : string -> string) (token : string) :
  lowers_ascii_as_the_engine lower -> In token vocabulary -> lower token = token.
Proof.
  intros Hlower Hin. cbn [In vocabulary] in Hin.
  destruct Hin as [<- | [<- | [<- | [<- | [<- | []]]]]];
    now rewrite Hlower.
Qed.

(** The effect of a token that lowers to a word of the vocabulary. *)
Lemma handleRemoteCommand_with_vocabulary
    (lower : string -> string) (s : AppState) (command : string) :
  lowers_ascii_as_the_engine lower ->
  In (lower command) vocabulary ->
  handleRemoteCommand_with lower s command
  = handleRemoteCommand_with lower s (lower command).
Proof.
  intros Hlower Hin.
  pose proof (lower_of_vocabulary lower (lower command) Hlower Hin) as Hfixed.
  unfold handleRemoteCommand_with. rewrite Hfixed.
  cbn [In vocabulary] in Hin.
  destruct Hin as [H | [H | [H | [H | [H | []]]]]];
    rewrite <- H; reflexivity.
Qed.

(** The effect of any other token. *)
Lemma handleRemoteCommand_with_echo
    (lower : string -> string) (s : AppState) (command : string) :
  ~ In (lower command) vocabulary ->
  handleRemoteCommand_with lower s command
  = speak (VStr ("Received command: " +:+ command)).
Proof.
  intros Hout. unfold handleRemoteCommand_with.
  repeat match goal with
  | |- context [String.eqb ?a ?b] =>
      destruct (String.eqb_spec a b) as [Heq | _];
      [ exfalso; apply Hout; rewrite Heq; simpl; tauto | ]
  end.
  reflexivity.
Qed.

(** C8.  Tokens are matched without regard to case and every token has an
    effect, whatever the engine's [toLowerCase] does outside ASCII.
    [status] announces the mode of the state it is called with, and
    [STATUS] and [Status] have the same effect; each lower-case word of
    the vocabulary has the effect of its [case]; a token that lowers to a
    word of the vocabulary has the effect of that word; every other token
    is echoed, the token spoken back as it was received. *)
Theorem handleRemoteCommand_matches_any_case
    (lower : string -> string) (s : AppState) (command : string) :
  lowers_ascii_as_the_engine lower ->
  (handleRemoteCommand_with lower s "STATUS"
   = handleRemoteCommand_with lower s "status"
   /\ handleRemoteCommand_with lower s "Status"
      = handleRemoteCommand_with lower s "status")
  /\ map (handleRemoteCommand_with lower s) vocabulary
     = [ [Speech_stop; Speech_speak (VStr "Hello from remote device!")];
         [Speech_stop; Speech_speak (VStr ("Current mode is " +:+ currentMode s))];
         [setCurrentMode "read"; Speech_stop; Speech_speak (VStr "Mode set to read")];
         [setCurrentMode "navigate"; Speech_stop;
          Speech_speak (VStr "Mode set to navigate")];
         [setCurrentMode "passive"; Speech_stop;
          Speech_speak (VStr "Mode set to passive")] ]
  /\ (In (lower command) vocabulary ->
      handleRemoteCommand_with lower s command
      = handleRemoteCommand_with lower s (lower command))
  /\ (~ In (lower command) vocabulary ->
      handleRemoteCommand_with lower s command
      = [Speech_stop; Speech_speak (VStr ("Received command: " +:+ command))]).
Proof.
  intros Hlower.
  split.
  { unfold handleRemoteCommand_with. rewrite !Hlower by reflexivity.
    split; reflexivity. }
  split.
  { cbn [map vocabulary]. unfold handleRemoteCommand_with.
    rewrite !Hlower by reflexivity. reflexivity. }
  split.
  - now apply handleRemoteCommand_with_vocabulary.
  - intros Hout. now rewrite handleRemoteCommand_with_echo.
Qed.

Lemma handleRemoteCommand_matches_any_case_witness :
  handleRemoteCommand_with lower_with_kelvin initialState ("SPEA" +:+ kelvin_sign)
  = handleRemoteCommand_with lower_with_kelvin initialState "speak"
  /\ handleRemoteCommand_with toLowerCase initialState "NaViGaTe"
     = handleRemoteCommand_with toLowerCase initialState "navigate"
  /\ handleRemoteCommand_with toLowerCase initialState "banana"
     = [Speech_stop; Speech_speak (VStr "Received command: banana")].
Proof.
  split; [|split].
  - apply (proj1 (proj2 (proj2
      (handleRemoteCommand_matches_any_case lower_with_kelvin initialState
         ("SPEA" +:+ kelvin_sign) lower_with_kelvin_lowers_ascii)))).
    vm_compute. tauto.
  - apply (proj1 (proj2 (proj2
      (handleRemoteCommand_matches_any_case toLowerCase initialState "NaViGaTe"
         (fun text _ => eq_refl))))).
    vm_compute. tauto.
  - apply (proj2 (proj2 (proj2
      (handleRemoteCommand_matches_any_case toLowerCase initialState "banana"
         (fun text _ => eq_refl))))).
    vm_compute. intuition discriminate.
Defined.

(** *** Status after navigate *)


(** When the component has rendered between the two commands, [status]
    is handled by the closure of the state [navigate] has committed, and
    the announcement carries navigate. *)
Lemma status_after_a_render (w : World) :
  let w1 := step w (RemoteCommand "navigate") in
  let w2 := step w1 (RemoteCommand "status") in
  currentMode (state w1) = "navigate"
  /\ handleRemoteCommand (state w1) "status"
     = [Speech_stop; Speech_speak (VStr "Current mode is navigate")]
  /\ trace w2
     = trace w1 ++ [Speech_stop; Speech_speak (VStr "Current mode is navigate")]
  /\ speaking (trace w2) = Some (VStr "Current mode is navigate")
  /\ currentMode (state w2) = "navigate".
Proof.
  intros w1 w2.
  assert (Hmode : currentMode (state w1) = "navigate") by reflexivity.
  clearbody w1.
  assert (Hstatus : handleRemoteCommand (state w1) "status"
                    = speak (VStr "Current mode is navigate")).
  { unfold handleRemoteCommand.
    change (toLowerCase "status") with "status".
    cbn [String.eqb Ascii.eqb Bool.eqb]. now rewrite Hmode. }
  subst w2. cbn [step]. rewrite Hstatus.
  unfold perform; cbn [state trace].
  repeat split; try assumption.
  apply speaking_speak.
Qed.

(** [status] announces the mode of the state it is called with. *)
Remark status_reads_its_own_render (s : AppState) :
  handleRemoteCommand s "status"
  = [Speech_stop; Speech_speak (VStr ("Current mode is " +:+ currentMode s))].
Proof. reflexivity. Qed.

(** The shapes [handleRemoteCommand] can take. *)
Lemma handleRemoteCommand_shape (s : AppState) (command : string) :
  (exists text, handleRemoteCommand s command = speak text)
  \/ (exists mode text,
        handleRemoteCommand s command = setCurrentMode mode :: speak text).
Proof.
  unfold handleRemoteCommand.
  repeat match goal with
  | |- context [if ?b then _ else _] => destruct b
  end; eauto.
Qed.

(** C10.  Handling a remote command, whatever the token, never sets the
    displayed message: its effects are calls on the speech sink and at
    most a change of mode, and every cell of the state other than the mode
    keeps its value.  A press on a mode button sets both the mode and the
    displayed message. *)
Theorem remote_command_keeps_message (w : World) (command : string) :
  let effects := handleRemoteCommand (state w) command in
  let w' := step w (RemoteCommand command) in
  (forallb speech_or_mode effects = true
   /\ count is_setMessage effects = 0
   /\ message (state w') = message (state w)
   /\ hasPermission (state w') = hasPermission (state w)
   /\ cameraReady (state w') = cameraReady (state w)
   /\ isProcessing (state w') = isProcessing (state w)
   /\ remoteControlEnabled (state w') = remoteControlEnabled (state w)
   /\ serverStatus (state w') = serverStatus (state w)
   /\ deviceIP (state w') = deviceIP (state w)
   /\ runs w' = runs w)
  /\ (forall (s : AppState) (m : Mode),
        count is_setMessage (onPressMode m) = 1
        /\ currentMode (commit_all s (onPressMode m)) = mode_token m
        /\ message (commit_all s (onPressMode m)) = VStr (mode_button_message m)).
Proof.
  intros effects w'. subst effects w'. cbn [step].
  split; [| intros s m; repeat split; reflexivity].
  destruct (handleRemoteCommand_shape (state w) command)
    as [[text ->] | [mode [text ->]]];
    repeat split; reflexivity.
Qed.

End RemoteCommands.

(** ** Capture-and-describe pipeline *)

Module Pipeline.
Import JsString Js App Runtime Response Scenario TraceFacts.

(** *** One resumption *)

Lemma resume_cases (ph : Phase) (o : Settlement) :
  ph <> Done -> Resumption ph (resume ph o).
Proof.
  intros Hph. destruct ph as [mode| | |]; [| | |contradiction];
    destruct o as [value|reason]; cbn [resume try_block];
    try apply (resumption_ends _ (VStr (failure_message reason))).
  - destruct (getProp value "base64") as [data|error].
    + apply resumption_fetch.
    + apply (resumption_ends _ (VStr (failure_message error))).
  - apply resumption_json.
  - destruct (describe value) as [description|error].
    + apply resumption_ends.
    + apply (resumption_ends _ (VStr (failure_message error))).
Qed.

Lemma drive_Done (settlements : list Settlement) :
  drive Done settlements = ([], Done).
Proof.
  induction settlements as [|o later IH]; cbn [drive resume]; [reflexivity|].
  now rewrite IH.
Qed.

(** All a run does from a suspension to its end: calls on the backend,
    then one message, then the flag cleared. *)
Lemma drive_to_Done (ph : Phase) (settlements : list Settlement) (effects : list Effect) :
  ph <> Done ->
  drive ph settlements = (effects, Done) ->
  exists calls msg,
    effects = calls ++ updateMessage msg true ++ finally_block
    /\ forallb is_backend_call calls = true.
Proof.
  revert ph effects.
  induction settlements as [|o later IH]; intros ph effects Hph; cbn [drive].
  - intros [= _ ->]. contradiction.
  - pose proof (resume_cases ph o Hph) as Hres.
    destruct (resume ph o) as [first next].
    destruct (drive next later) as [more final] eqn:Hdrive.
    intros [= <- ->].
    inversion Hres; subst.
    + destruct (IH AwaitingFetch more ltac:(discriminate) Hdrive)
        as (calls & msg & -> & Hcalls).
      exists (fetch req :: calls), msg. split; [reflexivity|exact Hcalls].
    + destruct (IH AwaitingJson more ltac:(discriminate) Hdrive)
        as (calls & msg & -> & Hcalls).
      exists (response_json :: calls), msg. split; [reflexivity|exact Hcalls].
    + rewrite drive_Done in Hdrive. injection Hdrive as <-.
      exists [], msg. rewrite app_nil_r. split; reflexivity.
Qed.

(** A run is over once three of its promises have settled. *)
Lemma drive_three (ph : Phase) (o1 o2 o3 : Settlement) :
  snd (drive ph [o1; o2; o3]) = Done.
Proof.
  destruct ph as [mode| | |]; [| | |now rewrite drive_Done].
  - cbn [drive].
    pose proof (resume_cases (Capturing mode) o1 ltac:(discriminate)) as H1.
    destruct (resume (Capturing mode) o1) as [e1 p1].
    inversion H1; subst.
    + pose proof (resume_cases AwaitingFetch o2 ltac:(discriminate)) as H2.
      destruct (resume AwaitingFetch o2) as [e2 p2].
      inversion H2; subst.
      * pose proof (resume_cases AwaitingJson o3 ltac:(discriminate)) as H3.
        destruct (resume AwaitingJson o3) as [e3 p3].
        inversion H3; subst. reflexivity.
      * reflexivity.
    + reflexivity.
  - cbn [drive].
    pose proof (resume_cases AwaitingFetch o1 ltac:(discriminate)) as H1.
    destruct (resume AwaitingFetch o1) as [e1 p1].
    inversion H1; subst.
    + pose proof (resume_cases AwaitingJson o2 ltac:(discriminate)) as H2.
      destruct (resume AwaitingJson o2) as [e2 p2].
      inversion H2; subst. reflexivity.
    + reflexivity.
  - cbn [drive].
    pose proof (resume_cases AwaitingJson o1 ltac:(discriminate)) as H1.
    destruct (resume AwaitingJson o1) as [e1 p1].
    inversion H1; subst. reflexivity.
Qed.

(** *** Runs from start to end *)

Lemma processImage_start_passes (s : AppState) (ref : bool)
    (start : list Effect) (ph : Phase) :
  processImage_start s ref = (start, Some ph) ->
  cameraReady s = true /\ ref = true
  /\ ph = Capturing (currentMode s)
  /\ start = [setIsProcessing true; setMessage (VStr analyzing_message);
              Speech_stop; takePictureAsync].
Proof.
  unfold processImage_start.
  destruct (cameraReady s), ref; cbn [negb orb]; intros [= <- <-];
    repeat split; reflexivity.
Qed.

(** C5.  A run of [processImage] that got past its entry guard is over
    after at most three settlements, and however it ends (description,
    fallback, failure of the capture, of the request or of the parsing)
    it has called [Speech.speak] exactly once, has set the processing
    flag once and cleared it exactly once, and leaves the flag cleared. *)
Theorem completed_run_speaks_once_clears_once
    (s : AppState) (ref : bool) (start : list Effect) (ph : Phase) :
  processImage_start s ref = (start, Some ph) ->
  (forall o1 o2 o3 : Settlement, snd (drive ph [o1; o2; o3]) = Done)
  /\ (forall (settlements : list Settlement) (rest : list Effect),
        drive ph settlements = (rest, Done) ->
        count is_speak (start ++ rest) = 1
        /\ count is_clear_processing (start ++ rest) = 1
        /\ count is_raise_processing (start ++ rest) = 1
        /\ isProcessing (commit_all s (start ++ rest)) = false).
Proof.
  intros (_ & _ & -> & ->)%processImage_start_passes.
  split; [intros; apply drive_three|].
  intros settlements rest Hdrive.
  apply drive_to_Done in Hdrive as (calls & msg & -> & Hcalls); [|discriminate].
  rewrite !count_app.
  rewrite !(count_backend_calls _ calls) by
    (assumption || (intros []; intros; (reflexivity || discriminate))).
  repeat split; try reflexivity.
  rewrite !app_assoc. apply isProcessing_after_set.
Qed.

Lemma completed_run_speaks_once_clears_once_witness :
  let run :=
    [setIsProcessing true; setMessage (VStr "Analyzing image, please wait...");
     Speech_stop; takePictureAsync]
    ++ fst (drive (Capturing "read")
              [Fulfilled photo; Fulfilled http_response;
               Fulfilled (response_with_text "Exit sign ahead")]) in
  count is_speak run = 1 /\ count is_clear_processing run = 1.
Proof.
  destruct (completed_run_speaks_once_clears_once (ready_state "read") true
              [setIsProcessing true; setMessage (VStr "Analyzing image, please wait...");
               Speech_stop; takePictureAsync]
              (Capturing "read") eq_refl) as [_ Hrun].
  destruct (Hrun [Fulfilled photo; Fulfilled http_response;
                  Fulfilled (response_with_text "Exit sign ahead")]
                 _ eq_refl) as (Hspeak & Hclear & _).
  split; [exact Hspeak|exact Hclear].
Defined.

(** *** Settlements in a world *)

Lemma settle_lookup (w : World) (run : nat) (ph : Phase) (o : Settlement) :
  runs w !! run = Some ph ->
  settle run o w
  = perform (fst (resume ph o)) (with_runs w (<[run := snd (resume ph o)]> (runs w))).
Proof.
  intros Hrun. unfold settle. rewrite Hrun. now destruct (resume ph o).
Qed.

Lemma lookup_after_insert (rs : list Phase) (run : nat) (ph next : Phase) :
  rs !! run = Some ph -> <[run := next]> rs !! run = Some next.
Proof.
  intros Hrun. apply list_lookup_insert_eq. eapply lookup_lt_Some, Hrun.
Qed.

Lemma resume_rejected (ph : Phase) (error : Error) :
  ph <> Done -> resume ph (Rejected error) = (catch_block error ++ finally_block, Done).
Proof. destruct ph; [reflexivity..|contradiction]. Qed.

(** C6.  When the promise of the backend call is rejected, at [fetch] or
    at the parsing of the body, the run reports once: the message
    "Failed to get description: <detail>. Please try again.", carrying the
    message of the error, is displayed and spoken; the processing flag
    is cleared and the run is over, so that with the camera ready the
    capture button is enabled again and a press starts a new run. *)
Theorem backend_error_reported_once
    (w : World) (run : nat) (ph : Phase) (error : Error) :
  runs w !! run = Some ph ->
  ph = AwaitingFetch \/ ph = AwaitingJson ->
  let report :=
    VStr ("Failed to get description: " +:+ error_message error
          +:+ ". Please try again.") in
  let w' := step w (Settle run (Rejected error)) in
  trace w'
  = trace w ++ [setMessage report; Speech_stop; Speech_speak report;
                setIsProcessing false]
  /\ message (state w') = report
  /\ speaking (trace w') = Some report
  /\ isProcessing (state w') = false
  /\ runs w' !! run = Some Done
  /\ (main_ui (state w) = true -> cameraReady (state w) = true ->
      cameraRef_current w = true ->
      Camera_loaded w = true -> Speech_loaded w = true ->
      capture_disabled w' = false
      /\ runs (step w' PressCapture) = runs w' ++ [Capturing (currentMode (state w))]
      /\ count is_capture (trace (step w' PressCapture))
         = S (count is_capture (trace w'))).
Proof.
  intros Hrun Hph report w'. subst w'. cbn [step].
  rewrite (settle_lookup _ _ _ _ Hrun).
  rewrite resume_rejected by (destruct Hph as [-> | ->]; discriminate).
  cbn [fst snd]. unfold perform, with_runs; cbn [state trace runs].
  split; [reflexivity|].
  split; [reflexivity|].
  split.
  { change (catch_block error ++ finally_block)
      with ([setMessage report] ++ speak report ++ [setIsProcessing false]).
    rewrite !app_assoc, speaking_app_quiet by reflexivity.
    apply speaking_speak. }
  split; [reflexivity|].
  split; [eapply lookup_after_insert, Hrun|].
  intros Hui Hready Href Hcam Hspeech.
  unfold capture_disabled, call_processImage, processImage_start, main_ui in *;
    cbn [state trace runs cameraRef_current Camera_loaded Speech_loaded
         commit_all fold_left catch_block finally_block updateMessage speak app commit
         hasPermission cameraReady isProcessing currentMode].
  rewrite Hready, Href, Hcam, Hspeech.
  destruct (hasPermission (state w)) as [[|]|]; try discriminate Hui.
  cbn. repeat split.
  rewrite !count_app. cbn. lia.
Qed.

Lemma backend_error_reported_once_witness :
  let w' := step awaiting_result_world (Settle 0 (Rejected network_error)) in
  message (state w')
  = VStr "Failed to get description: Network request failed. Please try again."
  /\ isProcessing (state w') = false
  /\ capture_disabled w' = false.
Proof.
  destruct (backend_error_reported_once awaiting_result_world 0 AwaitingJson
              network_error eq_refl (or_intror eq_refl))
    as (_ & Hmessage & _ & Hflag & _ & Hretry).
  split; [exact Hmessage|].
  split; [exact Hflag|].
  exact (proj1 (Hretry eq_refl eq_refl eq_refl eq_refl eq_refl)).
Defined.

(** *** The entry guard and the capture step *)

Lemma settle_Done (w : World) (run : nat) (o : Settlement) :
  runs w !! run = Some Done -> settle run o w = w.
Proof.
  intros Hrun. rewrite (settle_lookup _ _ _ _ Hrun). cbn [resume fst snd].
  unfold perform, with_runs; cbn [state trace runs commit_all fold_left].
  rewrite app_nil_r, list_insert_id by exact Hrun.
  now destruct w.
Qed.

(** C7.  A failure at or before the capture never reaches the network.
    Called while the camera is not ready (or its ref is not set),
    [processImage] displays and speaks "Camera not ready. Please wait or
    refresh the app.", starts no run, takes no picture and calls no
    backend.  When [takePictureAsync] is rejected, the run displays and
    speaks its failure message, clears the flag and is over: it has
    called no backend and no later settlement makes it do anything. *)
Theorem capture_failure_never_reaches_backend (w : World) :
  (cameraReady (state w) = false \/ cameraRef_current w = false ->
   let w' := call_processImage w in
   trace w'
   = trace w ++ [setMessage (VStr "Camera not ready. Please wait or refresh the app.");
                 Speech_stop;
                 Speech_speak (VStr "Camera not ready. Please wait or refresh the app.")]
   /\ runs w' = runs w
   /\ count is_backend_call (trace w') = count is_backend_call (trace w)
   /\ count is_capture (trace w') = count is_capture (trace w)
   /\ isProcessing (state w') = isProcessing (state w))
  /\ (forall (run : nat) (mode : string) (error : Error),
        runs w !! run = Some (Capturing mode) ->
        let report :=
          VStr ("Failed to get description: " +:+ error_message error
                +:+ ". Please try again.") in
        let w' := step w (Settle run (Rejected error)) in
        trace w'
        = trace w ++ [setMessage report; Speech_stop; Speech_speak report;
                      setIsProcessing false]
        /\ count is_backend_call (trace w') = count is_backend_call (trace w)
        /\ message (state w') = report
        /\ runs w' !! run = Some Done
        /\ (forall later : Settlement, step w' (Settle run later) = w')
        /\ (forall later : list Settlement,
              count is_backend_call
                (fst (drive (Capturing mode) (Rejected error :: later))) = 0)).
Proof.
  split.
  - intros Hguard w'. subst w'.
    unfold call_processImage, processImage_start.
    assert (negb (cameraReady (state w)) || negb (cameraRef_current w) = true) as ->.
    { destruct Hguard as [-> | ->]; [reflexivity|apply orb_true_r]. }
    unfold perform, with_runs; cbn [state trace runs].
    rewrite app_nil_r, !count_app. cbn. repeat split; lia.
  - intros run mode error Hrun report w'. subst w'. cbn [step].
    rewrite (settle_lookup _ _ _ _ Hrun). cbn [resume try_block fst snd].
    unfold perform, with_runs at 1 2 3 4; cbn [state trace runs].
    split; [reflexivity|].
    split; [rewrite count_app; cbn; lia|].
    split; [reflexivity|].
    split; [eapply lookup_after_insert, Hrun|].
    split.
    + intros later. apply settle_Done. cbn [runs with_runs].
      eapply lookup_after_insert, Hrun.
    + intros later. cbn [drive resume try_block].
      rewrite drive_Done. reflexivity.
Qed.

Lemma capture_failure_never_reaches_backend_witness :
  count is_backend_call (trace (call_processImage loading_world)) = 0
  /\ runs (call_processImage loading_world) = []
  /\ count is_backend_call
       (trace (steps (ready_world "read")
                 [PressCapture; Settle 0 (Rejected camera_error)])) = 0.
Proof.
  destruct (capture_failure_never_reaches_backend loading_world) as [Hguard _].
  destruct (Hguard (or_introl eq_refl)) as (_ & Hruns & Hcalls & _).
  split; [exact Hcalls|].
  split; [exact Hruns|].
  destruct (capture_failure_never_reaches_backend (step (ready_world "read") PressCapture))
    as [_ Hthrow].
  destruct (Hthrow 0 "read" camera_error eq_refl) as (_ & Hnone & _).
  exact Hnone.
Defined.

(** *** Re-entrancy *)

(** C2.  While the processing flag is set the capture button is disabled
    and a press on it changes nothing: no effect is performed (no picture
    is taken, no backend is called) and no run is added to the pending
    ones, so nothing is left to start later either. *)
Theorem capture_press_while_processing_is_noop (w : World) :
  isProcessing (state w) = true ->
  capture_disabled w = true
  /\ step w PressCapture = w
  /\ trace (step w PressCapture) = trace w
  /\ runs (step w PressCapture) = runs w
  /\ (forall events : list Event, steps w (PressCapture :: events) = steps w events).
Proof.
  intros Hbusy.
  assert (Hdisabled : capture_disabled w = true).
  { unfold capture_disabled. rewrite Hbusy. now rewrite orb_true_r. }
  assert (Hstep : step w PressCapture = w).
  { cbn [step]. rewrite Hdisabled. now rewrite andb_false_r. }
  split; [exact Hdisabled|].
  split; [exact Hstep|].
  unfold steps; cbn [fold_left]. rewrite Hstep. repeat split.
Qed.

Lemma capture_press_while_processing_is_noop_witness :
  step awaiting_result_world PressCapture = awaiting_result_world.
Proof.
  exact (proj1 (proj2
    (capture_press_while_processing_is_noop awaiting_result_world eq_refl))).
Defined.

(** The rejection is the button's: [processImage] itself does not read
    [isProcessing], and a call of it while a run is in flight starts a
    second run. *)
Remark processImage_reads_no_processing_flag :
  isProcessing (state awaiting_result_world) = true
  /\ runs (call_processImage awaiting_result_world)
     = [AwaitingJson; Capturing "passive"].
Proof. split; reflexivity. Qed.

(** *** Stop while a run is in flight *)

(** Stop cancels the speech, clears the flag and announces itself; the
    pending runs are left as they are. *)
Lemma stop_clears_flag_and_cancels_speech (w : World) :
  main_ui (state w) = true ->
  let w' := step w PressStop in
  trace w'
  = trace w ++ [Speech_stop; setIsProcessing false;
                setMessage (VStr "Stopped all operations");
                Speech_stop; Speech_speak (VStr "Stopped all operations")]
  /\ isProcessing (state w') = false
  /\ runs w' = runs w.
Proof.
  intros Hui w'. subst w'. cbn [step]. rewrite Hui.
  repeat split.
Qed.

(** No settlement sets the processing flag. *)
Lemma settlement_never_raises_flag (w : World) (run : nat) (o : Settlement) :
  isProcessing (state (step w (Settle run o))) = true ->
  isProcessing (state w) = true.
Proof.
  cbn [step]. unfold settle.
  destruct (runs w !! run) as [ph|] eqn:Hrun; [|trivial].
  destruct ph as [mode| | |].
  4: { cbn [resume]. trivial. }
  all: match goal with
       | |- context [resume ?ph ?o'] =>
           pose proof (resume_cases ph o' ltac:(discriminate)) as Hres;
           destruct (resume ph o') as [effects next]
       end;
       inversion Hres; subst; intros Hflag;
       first [exact Hflag | cbn in Hflag; discriminate Hflag].
Qed.

(** The run abandoned by Stop still delivers: when its body arrives, the
    description is displayed and spoken. *)
Lemma late_result_is_spoken
    (w : World) (run : nat) (result description : jsval) :
  main_ui (state w) = true ->
  runs w !! run = Some AwaitingJson ->
  describe result = Normal description ->
  let w' := steps w [PressStop; Settle run (Fulfilled result)] in
  speaking (trace w') = Some description
  /\ message (state w') = description
  /\ isProcessing (state w') = false.
Proof.
  intros Hui Hrun Hdescribe w'. subst w'.
  unfold steps; cbn [fold_left].
  destruct (stop_clears_flag_and_cancels_speech w Hui) as (Htrace & _ & Hruns).
  cbn zeta in Htrace, Hruns.
  set (stopped := step w PressStop) in *. clearbody stopped.
  cbn [step]. rewrite (settle_lookup _ _ AwaitingJson) by now rewrite Hruns.
  cbn [resume try_block]. rewrite Hdescribe. cbn [fst snd].
  unfold perform, with_runs; cbn [state trace runs].
  split.
  - change (updateMessage description true ++ finally_block)
      with ([setMessage description] ++ speak description ++ [setIsProcessing false]).
    rewrite !app_assoc, speaking_app_quiet by reflexivity.
    apply speaking_speak.
  - split; reflexivity.
Qed.

(** C1.  Stop is pressed while a capture in passive mode waits for the
    body of the response; the body then arrives with the text "Exit sign
    ahead".  Stop cancels the speech and clears the processing flag, and
    the late arrival does not set the flag again; but the abandoned run
    still displays and speaks the description it received, after "Stopped
    all operations" was announced. *)
Theorem stop_then_late_result_is_still_spoken :
  let stopped := step awaiting_result_world PressStop in
  let late :=
    step stopped (Settle 0 (Fulfilled (response_with_text "Exit sign ahead"))) in
  (runs awaiting_result_world = [AwaitingJson]
   /\ isProcessing (state awaiting_result_world) = true)
  /\ (isProcessing (state stopped) = false
      /\ speaking (trace stopped) = Some (VStr "Stopped all operations")
      /\ message (state stopped) = VStr "Stopped all operations")
  /\ (isProcessing (state late) = false
      /\ utterances (trace late)
         = [VStr "Stopped all operations"; VStr "Exit sign ahead"]
      /\ speaking (trace late) = Some (VStr "Exit sign ahead")
      /\ message (state late) = VStr "Exit sign ahead").
Proof. vm_compute. repeat split. Qed.

(** The same when the abandoned call fails: its failure message replaces
    the announcement of the stop. *)
Remark stop_then_late_rejection_is_still_spoken :
  let late :=
    steps awaiting_result_world [PressStop; Settle 0 (Rejected network_error)] in
  isProcessing (state late) = false
  /\ speaking (trace late)
     = Some (VStr "Failed to get description: Network request failed. Please try again.").
Proof. vm_compute. repeat split. Qed.

(** *** Reading the response *)

Lemma first_part_inv (result part : jsval) :
  first_part result = Some part ->
  exists fields candidate others content parts,
    result = VObj fields
    /\ fields !! "candidates" = Some (VArr (VObj candidate :: others))
    /\ candidate !! "content" = Some (VObj content)
    /\ content !! "parts" = Some (VArr (part :: parts)).
Proof.
  unfold first_part, candidates_of.
  destruct result as [| | | | | |fields]; try discriminate.
  destruct (fields !! "candidates") as [[| | | | |candidates|]|] eqn:Hc;
    try discriminate.
  destruct candidates as [|candidate others]; [discriminate|].
  cbn [head mbind option_bind]. unfold parts_of.
  destruct candidate as [| | | | | |candidate]; try discriminate.
  destruct (candidate !! "content") as [[| | | | | |content]|] eqn:Hct;
    try discriminate.
  destruct (content !! "parts") as [[| | | | |parts|]|] eqn:Hp;
    try discriminate.
  destruct parts as [|first parts]; [discriminate|].
  intros [= ->]. eauto 10.
Qed.

Lemma gt0_length_cons (x : jsval) (l : list jsval) :
  gt0 (VNum (Z.of_nat (length (x :: l)))) = true.
Proof. unfold gt0, Js.toNumber. apply Z.ltb_lt. cbn [length]. lia. Qed.

Lemma getProp_field (fields : gmap string jsval) (key : string) (v : jsval) :
  fields !! key = Some v -> getProp (VObj fields) key = Normal v.
Proof. intros Hv. cbn [getProp]. now rewrite Hv. Qed.

Lemma getProp_absent (fields : gmap string jsval) (key : string) :
  Absent (fields !! key) -> truthy <$> getProp (VObj fields) key = Normal false.
Proof. cbn [getProp]. now intros []. Qed.

Lemma getProp_first (first : jsval) (others : list jsval) :
  getProp (VArr (first :: others)) "0" = Normal first.
Proof. reflexivity. Qed.

Lemma getProp_length (items : list jsval) :
  getProp (VArr items) "length" = Normal (VNum (Z.of_nat (length items))).
Proof. reflexivity. Qed.

Lemma getPath_step (base v : jsval) (key : string) (keys : list string) :
  getProp base key = Normal v -> getPath base (key :: keys) = getPath v keys.
Proof. intros Hv. cbn [getPath]. now rewrite Hv. Qed.

(** With a first part in place the description is whatever its [text]
    holds. *)
Lemma describe_first_part (result part : jsval) :
  first_part result = Some part ->
  describe result = getProp part "text".
Proof.
  intros (fields & candidate & others & content & parts
          & -> & Hc%getProp_field & Hct%getProp_field & Hp%getProp_field)%first_part_inv.
  unfold describe, has_description.
  rewrite !(getPath_step _ _ _ _ Hc).
  rewrite !(getPath_step _ _ _ _ (getProp_first _ _)).
  rewrite !(getPath_step _ _ _ _ (getProp_length _)).
  rewrite !(getPath_step _ _ _ _ Hct).
  rewrite !(getPath_step _ _ _ _ Hp).
  rewrite !(getPath_step _ _ _ _ (getProp_first _ _)).
  rewrite !(getPath_step _ _ _ _ (getProp_length _)).
  cbn [getPath fmap completion_fmap truthy].
  rewrite !gt0_length_cons.
  cbn [all_of fold_right and_then mbind completion_bind].
  destruct (getProp part "text"); reflexivity.
Qed.

(** Without one, in a response object, the description is the fallback. *)
Lemma describe_fallback (result : jsval) :
  NoDescription result ->
  describe result = Normal (VStr fallback_message).
Proof.
  unfold describe, has_description.
  intros [fields Hc | fields Hc%getProp_field
          | fields candidate others Hc%getProp_field Hct
          | fields candidate others content Hc%getProp_field Hct%getProp_field Hp
          | fields candidate others content Hc%getProp_field Hct%getProp_field
              Hp%getProp_field].
  - cbn [getPath]. 
    replace (getProp (VObj fields) "candidates" ≫= (fun v => Normal v))
      with (getProp (VObj fields) "candidates")
      by now destruct (getProp (VObj fields) "candidates").
    rewrite (getProp_absent _ _ Hc). reflexivity.
  - rewrite !(getPath_step _ _ _ _ Hc).
    rewrite !(getPath_step _ _ _ _ (getProp_length _)).
    reflexivity.
  - rewrite !(getPath_step _ _ _ _ Hc).
    rewrite !(getPath_step _ _ _ _ (getProp_first _ _)).
    rewrite !(getPath_step _ _ _ _ (getProp_length _)).
    cbn [getPath fmap completion_fmap truthy].
    rewrite !gt0_length_cons.
    replace (getProp (VObj candidate) "content" ≫= (fun v => Normal v))
      with (getProp (VObj candidate) "content")
      by now destruct (getProp (VObj candidate) "content").
    change (completion_fmap _ _ truthy (getProp (VObj candidate) "content"))
      with (truthy <$> getProp (VObj candidate) "content").
    rewrite (getProp_absent _ _ Hct). reflexivity.
  - rewrite !(getPath_step _ _ _ _ Hc).
    rewrite !(getPath_step _ _ _ _ (getProp_first _ _)).
    rewrite !(getPath_step _ _ _ _ (getProp_length _)).
    rewrite !(getPath_step _ _ _ _ Hct).
    cbn [getPath fmap completion_fmap truthy].
    rewrite !gt0_length_cons.
    replace (getProp (VObj content) "parts" ≫= (fun v => Normal v))
      with (getProp (VObj content) "parts")
      by now destruct (getProp (VObj content) "parts").
    change (completion_fmap _ _ truthy (getProp (VObj content) "parts"))
      with (truthy <$> getProp (VObj content) "parts").
    rewrite (getProp_absent _ _ Hp). reflexivity.
  - rewrite !(getPath_step _ _ _ _ Hc).
    rewrite !(getPath_step _ _ _ _ (getProp_first _ _)).
    rewrite !(getPath_step _ _ _ _ (getProp_length _)).
    rewrite !(getPath_step _ _ _ _ Hct).
    rewrite !(getPath_step _ _ _ _ Hp).
    rewrite !(getPath_step _ _ _ _ (getProp_length _)).
    cbn [getPath fmap completion_fmap truthy].
    rewrite !gt0_length_cons.
    reflexivity.
Qed.

(** C3, as the code has it.  When the first candidate of the response
    has a content whose parts start with an object, the [text] of that
    part is the description: it is displayed and spoken as it is, an empty
    text included, and no other part or candidate is consulted.  When the
    response object has no candidates (the field is missing, [null] or an
    empty list), or its first candidate has no content, or that content
    has no parts, the fallback "No clear description was generated. Please
    try again." is displayed and spoken instead.  In both cases the run
    ends with the flag cleared and nothing is thrown. *)
Theorem response_description (result : jsval) :
  (forall part : gmap string jsval,
      first_part result = Some (VObj part) ->
      let description := default VUndefined (part !! "text") in
      resume AwaitingJson (Fulfilled result)
      = ([setMessage description; Speech_stop; Speech_speak description;
          setIsProcessing false], Done))
  /\ (NoDescription result ->
      let fallback :=
        VStr "No clear description was generated. Please try again." in
      resume AwaitingJson (Fulfilled result)
      = ([setMessage fallback; Speech_stop; Speech_speak fallback;
          setIsProcessing false], Done)).
Proof.
  split.
  - intros part Hpart description. cbn [resume try_block].
    now rewrite (describe_first_part _ _ Hpart).
  - intros Hnone fallback. cbn [resume try_block].
    now rewrite (describe_fallback _ Hnone).
Qed.

Lemma response_description_witness :
  utterances
    (fst (resume AwaitingJson (Fulfilled (response_with_text "Exit sign ahead"))))
  = [VStr "Exit sign ahead"]
  /\ utterances (fst (resume AwaitingJson (Fulfilled response_zero_candidates)))
     = [VStr "No clear description was generated. Please try again."].
Proof.
  split.
  - destruct (response_description (response_with_text "Exit sign ahead"))
      as [Htext _].
    now rewrite (Htext {[ "text" := VStr "Exit sign ahead" ]} eq_refl).
  - destruct (response_description response_zero_candidates) as [_ Hnone].
    assert (Hzero : NoDescription response_zero_candidates)
      by (apply zero_candidates; reflexivity).
    now rewrite (Hnone Hzero).
Defined.

(** An empty text is no "non-empty candidate text", yet it is spoken as
    it is, not replaced by the fallback. *)
Lemma empty_text_is_spoken_as_is :
  ~ described_as_claimed (response_with_text "").
Proof.
  unfold described_as_claimed.
  change (has_nonempty_candidate_text (response_with_text "")) with false.
  cbv iota.
  change (utterances (fst (resume AwaitingJson (Fulfilled (response_with_text "")))))
    with [VStr ""].
  discriminate.
Qed.

(** Nor are the later candidates read: a text in the second candidate
    leaves the fallback. *)
Remark later_candidates_are_not_read :
  has_nonempty_candidate_text response_text_in_second_candidate = true
  /\ utterances
       (fst (resume AwaitingJson (Fulfilled response_text_in_second_candidate)))
     = [VStr "No clear description was generated. Please try again."].
Proof. split; reflexivity. Qed.

(** A [null] in the place of the first candidate is read through: the
    [TypeError] lands in the [catch] block. *)
Remark null_candidate_is_a_failure :
  utterances (fst (resume AwaitingJson (Fulfilled response_null_candidate)))
  = [VStr "Failed to get description: Cannot read property 'content' of null. Please try again."].
Proof. reflexivity. Qed.

End Pipeline.

(** ** Sessions from launch *)

Module Reachable.
Import JsString Js App Runtime Mount Session View TraceFacts.

Lemma with_runs_same (w : World) : with_runs w (runs w) = w.
Proof. now destruct w. Qed.

Lemma perform_nothing (w : World) : perform [] (with_runs w (runs w)) = w.
Proof.
  unfold perform, with_runs; cbn [state trace runs commit_all fold_left
    cameraRef_current Camera_loaded Speech_loaded].
  rewrite app_nil_r. now destruct w.
Qed.

(** A command token that names a mode sets that mode. *)
Lemma handleRemoteCommand_outcome (w : World) (command : string) :
  Outcome w (handleRemoteCommand (state w) command) (runs w).
Proof.
  unfold handleRemoteCommand.
  repeat match goal with
  | |- context [if ?b then _ else _] => destruct b
  end;
  first [apply outcome_speak | now apply outcome_command_mode].
Qed.

Lemma resume_outcome (w : World) (run : nat) (ph : Phase) (o : Settlement) :
  runs w !! run = Some ph ->
  Outcome w (fst (resume ph o)) (<[run := snd (resume ph o)]> (runs w)).
Proof.
  intros Hrun. destruct ph as [mode| | |].
  4: { cbn [resume fst snd]. rewrite list_insert_id by exact Hrun.
       apply outcome_nothing. }
  all: match goal with
       | |- context [resume ?ph ?o'] =>
           pose proof (Pipeline.resume_cases ph o' ltac:(discriminate)) as Hres;
           destruct (resume ph o') as [effects next]
       end;
       inversion Hres; subst; cbn [fst snd];
       first [ eapply outcome_fetch; exact Hrun
             | eapply outcome_json; exact Hrun
             | eapply outcome_end; exact Hrun ].
Qed.

(** Every event of the screen has one of the outcomes. *)
Lemma step_outcome (w : World) (ev : Event) :
  exists effects rs,
    Outcome w effects rs /\ step w ev = perform effects (with_runs w rs).
Proof.
  assert (Hnothing : exists effects rs,
             Outcome w effects rs /\ w = perform effects (with_runs w rs)).
  { exists [], (runs w). split; [apply outcome_nothing|].
    symmetry; apply perform_nothing. }
  destruct ev as [| |m| | |command|run o]; cbn [step].
  - destruct (main_ui (state w)) eqn:Hui; [|exact Hnothing].
    destruct (capture_disabled w) eqn:Hdisabled; [exact Hnothing|].
    cbn [andb negb]. unfold call_processImage, processImage_start.
    assert (Hready : cameraReady (state w) = true).
    { unfold capture_disabled in Hdisabled.
      destruct (cameraReady (state w)); [reflexivity|discriminate]. }
    rewrite Hready. cbn [negb orb].
    destruct (cameraRef_current w).
    + eexists _, _. split; [now apply outcome_start|reflexivity].
    + eexists _, (runs w). split; [apply outcome_message|].
      cbn [negb]. now rewrite app_nil_r.
  - destruct (main_ui (state w)) eqn:Hui; [|exact Hnothing].
    eexists _, (runs w). split; [now apply outcome_stop|].
    now rewrite with_runs_same.
  - destruct (main_ui (state w)) eqn:Hui; [|exact Hnothing].
    eexists _, (runs w). split; [now apply (outcome_mode w m)|].
    now rewrite with_runs_same.
  - destruct (main_ui (state w)) eqn:Hui; [|exact Hnothing].
    unfold toggleRemoteControl.
    destruct (remoteControlEnabled (state w)).
    + exists stopServer, (runs w).
      split; [now apply outcome_remote_off|now rewrite with_runs_same].
    + exists (setRemoteControlEnabled true :: startServer), (runs w).
      split; [now apply outcome_remote_on|now rewrite with_runs_same].
  - destruct (main_ui (state w) && Camera_loaded w) eqn:Hui; [|exact Hnothing].
    apply andb_prop in Hui as [Hui _].
    eexists _, (runs w). split; [now apply outcome_camera_ready|].
    now rewrite with_runs_same.
  - eexists _, (runs w). split; [apply handleRemoteCommand_outcome|].
    now rewrite with_runs_same.
  - unfold settle. destruct (runs w !! run) as [ph|] eqn:Hrun; [|exact Hnothing].
    pose proof (resume_outcome w run ph o Hrun) as Hout.
    destruct (resume ph o) as [effects next]. cbn [fst snd] in Hout.
    eexists _, _. split; [exact Hout|reflexivity].
Qed.

(** *** The invariant is kept *)

Lemma cancel_then_speak_weaken (effects : list Effect) (after_stop : bool) :
  cancel_then_speak false effects = true ->
  cancel_then_speak after_stop effects = true.
Proof.
  destruct effects as [|[] rest]; cbn [cancel_then_speak andb];
    try discriminate; trivial.
Qed.

Lemma cancel_then_speak_app (before after : list Effect) (after_stop : bool) :
  cancel_then_speak after_stop before = true ->
  cancel_then_speak false after = true ->
  cancel_then_speak after_stop (before ++ after) = true.
Proof.
  revert after_stop.
  induction before as [|e rest IH]; intros after_stop; cbn [app].
  - intros _. apply cancel_then_speak_weaken.
  - destruct e; cbn [cancel_then_speak]; try apply IH.
    intros [-> Hrest]%andb_prop Hafter. cbn [andb]. now apply IH.
Qed.

Lemma existsb_pending_insert (rs : list Phase) (run : nat) (ph next : Phase) :
  rs !! run = Some ph ->
  pending next = true ->
  existsb pending (<[run := next]> rs) = true.
Proof.
  revert run. induction rs as [|first rest IH]; intros run; [discriminate|].
  destruct run as [|run]; intros Hrun Hnext.
  - change (pending next || existsb pending rest = true). now rewrite Hnext.
  - change (pending first || existsb pending (<[run := next]> rest) = true).
    rewrite (IH run Hrun Hnext). apply orb_true_r.
Qed.

Lemma main_ui_granted (s : AppState) :
  main_ui s = true -> hasPermission s = Some true.
Proof. unfold main_ui. now destruct (hasPermission s) as [[|]|]. Qed.

Lemma outcome_keeps_permission (w : World) (effects : list Effect) (rs : list Phase) :
  Outcome w effects rs ->
  hasPermission (state (perform effects (with_runs w rs))) = hasPermission (state w).
Proof. destruct 1 as [| | | |m| | | | | | | |]; try destruct m; reflexivity. Qed.

Lemma outcome_keeps_invariant (w : World) (effects : list Effect) (rs : list Phase) :
  WorldInvariant w ->
  Outcome w effects rs ->
  WorldInvariant (perform effects (with_runs w rs)).
Proof.
  intros [Hnone Hbusy Hmode Hon Hoff Hspeech] Hout.
  pose proof (outcome_keeps_permission w effects rs Hout) as Hperm.
  constructor.
  - rewrite Hperm. intros Hnot.
    destruct (Hnone Hnot) as (Hp & Hc & Hr & Hruns & Hcap & Hback).
    assert (Hui : main_ui (state w) = false).
    { destruct (main_ui (state w)) eqn:Hui; [|reflexivity].
      apply main_ui_granted in Hui. contradiction. }
    destruct Hout; try congruence;
      try (rewrite Hruns in *; discriminate);
      cbn [perform with_runs state trace runs commit_all fold_left commit
           updateMessage speak app isProcessing cameraReady remoteControlEnabled];
      rewrite ?count_app, ?app_nil_r, ?Hcap, ?Hback;
      repeat split; assumption || reflexivity.
  - destruct Hout as [|msg|Hui Hready| |m| | | |text|mode text Hknown
                      |run mode req Hrun|run Hrun|run ph msg Hrun];
      try destruct m;
      cbn [perform with_runs state trace runs commit_all fold_left commit
           updateMessage speak app onPressStop onPressMode startServer stopServer
           onCameraReady finally_block isProcessing cameraReady];
      try discriminate; try exact Hbusy.
    + intros _. split; [exact Hready|].
      rewrite existsb_app. cbn. apply orb_true_r.
    + intros Hp. split; [reflexivity|exact (proj2 (Hbusy Hp))].
    + intros Hp. destruct (Hbusy Hp) as [Hc Hex]. split; [exact Hc|].
      eapply existsb_pending_insert; [exact Hrun|reflexivity].
    + intros Hp. destruct (Hbusy Hp) as [Hc Hex]. split; [exact Hc|].
      eapply existsb_pending_insert; [exact Hrun|reflexivity].
  - destruct Hout as [| | | |m| | | | |mode text Hknown| | |];
      try destruct m; try exact Hmode; try exact Hknown; reflexivity.
  - destruct Hout as [| | | |m| | | | | | | |];
      try destruct m; try exact Hon; try discriminate;
      intros _; split; reflexivity.
  - destruct Hout as [| | | |m| | | | | | | |];
      try destruct m; try exact Hoff; try discriminate;
      intros _; reflexivity.
  - cbn [perform with_runs trace].
    apply cancel_then_speak_app; [exact Hspeech|].
    destruct Hout as [| | | |m| | | | | | | |]; try destruct m; reflexivity.
Qed.

Lemma step_keeps_invariant (w : World) (ev : Event) :
  WorldInvariant w -> WorldInvariant (step w ev).
Proof.
  intros Hinv. destruct (step_outcome w ev) as (effects & rs & Hout & ->).
  now apply outcome_keeps_invariant.
Qed.

Lemma step_keeps_permission (w : World) (ev : Event) :
  hasPermission (state (step w ev)) = hasPermission (state w).
Proof.
  destruct (step_outcome w ev) as (effects & rs & Hout & ->).
  now apply outcome_keeps_permission.
Qed.

(** A change of the world that touches neither the flags, nor the
    remote control cells, nor the runs, and adds no call on the camera or
    on the backend. *)
Lemma quiet_change_keeps_invariant (w w' : World) (extra : list Effect) :
  WorldInvariant w ->
  (hasPermission (state w) = Some true -> hasPermission (state w') = Some true) ->
  isProcessing (state w') = isProcessing (state w) ->
  cameraReady (state w') = cameraReady (state w) ->
  remoteControlEnabled (state w') = remoteControlEnabled (state w) ->
  serverStatus (state w') = serverStatus (state w) ->
  deviceIP (state w') = deviceIP (state w) ->
  runs w' = runs w ->
  mode_is_known (currentMode (state w')) = true ->
  trace w' = trace w ++ extra ->
  count is_capture extra = 0 ->
  count is_backend_call extra = 0 ->
  cancel_then_speak false extra = true ->
  WorldInvariant w'.
Proof.
  intros [Hnone Hbusy Hmode Hon Hoff Hspeech]
         Hperm Hp Hc Hr Hs Hip Hruns Hmode' Htrace Hcap Hback Hextra.
  constructor; rewrite ?Hp, ?Hc, ?Hr, ?Hs, ?Hip, ?Hruns, ?Htrace; try assumption.
  - intros Hnot. rewrite !count_app, Hcap, Hback.
    destruct (Hnone ltac:(intros Hgranted; apply Hnot, Hperm, Hgranted))
      as (? & ? & ? & ? & -> & ->).
    repeat split; assumption.
  - now apply cancel_then_speak_app.
Qed.

Lemma launch_invariant (ref camera speech : bool) :
  Invariant (launch ref camera speech).
Proof.
  split; [reflexivity|].
  constructor; cbn; try discriminate; try reflexivity.
  intros _. repeat split.
Qed.

Lemma session_step_keeps_invariant (s : Session) (ev : SessionEvent) :
  Invariant s -> Invariant (session_step s ev).
Proof.
  intros [Hundecided Hworld].
  assert (Hknown := mode_known _ Hworld).
  pose (quiet extra :=
    quiet_change_keeps_invariant (world s)
      (perform_mount extra (world s)) (handler_effects extra) Hworld).
  destruct ev as [requestIsFunction|o| |ev]; cbn [session_step].
  - destruct (mount s) eqn:Hmount; try (split; [rewrite ?Hmount|]; assumption).
    pose proof (Hundecided (or_introl eq_refl)) as Hnone.
    unfold requestPermissions_start.
    destruct (Camera_loaded (world s) && requestIsFunction);
      (split; [first [intros _; exact Hnone | intros [H | H]; discriminate H]|]);
      cbn [world]; apply quiet;
      first [ reflexivity | exact Hknown | rewrite Hnone; discriminate
            | cbn; now rewrite <- ?app_assoc ].
  - destruct (mount s) eqn:Hmount; try (split; [rewrite ?Hmount|]; assumption).
    pose proof (Hundecided (or_intror eq_refl)) as Hnone.
    split; [unfold resume_permission;
            destruct (after_permission o) as [[]|]; intros [H | H]; discriminate H|].
    assert (Hcases :
      fst (resume_permission o)
      = [setHasPermission true; of_handler (setCurrentMode "passive");
         setTimeout granted_message 500]
      \/ exists permissionMessage,
           fst (resume_permission o)
           = [setHasPermission false; setTimeout permissionMessage 500]).
    { unfold resume_permission.
      destruct o as [cameraStatus|reason]; cbn [after_permission]; [|eauto].
      destruct (getProp cameraStatus "status") as [status|];
        cbn [mbind completion_bind]; [|eauto].
      destruct (strict_eq_string status "granted" && true); cbn; eauto. }
    destruct (resume_permission o) as [effects next]. cbn [fst world] in *.
    destruct Hcases as [-> | [permissionMessage ->]]; apply quiet;
      first [ reflexivity | exact Hknown | rewrite Hnone; discriminate
            | intros _; reflexivity | cbn; now rewrite ?app_nil_r ].
  - destruct (mount s) as [| |permissionMessage|] eqn:Hmount;
      try (split; [rewrite ?Hmount|]; assumption).
    split; [intros [H | H]; discriminate H|].
    cbn [world]. rewrite <- (with_runs_same (world s)).
    apply outcome_keeps_invariant; [exact Hworld|apply outcome_message].
  - split; cbn [world mount].
    + intros Hphase. rewrite step_keeps_permission. now apply Hundecided.
    + now apply step_keeps_invariant.
Qed.

(** Every session from launch keeps the invariant. *)
Lemma sessions_keep_invariant (ref camera speech : bool) (events : list SessionEvent) :
  Invariant (session_steps (launch ref camera speech) events).
Proof.
  unfold session_steps.
  generalize (launch_invariant ref camera speech).
  generalize (launch ref camera speech) as s.
  induction events as [|ev later IH]; intros s Hinv; cbn [fold_left]; [exact Hinv|].
  apply IH, session_step_keeps_invariant, Hinv.
Qed.

(** *** What holds in every session *)

(** X1.  In every session from launch, as long as permission has not
    been granted (it is still undecided, or it was refused) the
    application has taken no picture and made no call on the backend, no
    run is pending, the processing flag is down and the camera is not
    marked ready, whatever was pressed. *)
Theorem nothing_captured_without_permission
    (ref camera speech : bool) (events : list SessionEvent) :
  let w := world (session_steps (launch ref camera speech) events) in
  hasPermission (state w) <> Some true ->
  count is_capture (trace w) = 0
  /\ count is_backend_call (trace w) = 0
  /\ runs w = []
  /\ isProcessing (state w) = false
  /\ cameraReady (state w) = false.
Proof.
  intros w Hnot. subst w.
  destruct (sessions_keep_invariant ref camera speech events) as [_ Hworld].
  destruct (nothing_without_permission _ Hworld Hnot) as (? & ? & ? & ? & ? & ?).
  repeat split; assumption.
Qed.

Lemma nothing_captured_without_permission_witness :
  hasPermission (state (world refused_session)) = Some false
  /\ count is_capture (trace (world refused_session)) = 0
  /\ runs (world refused_session) = [].
Proof.
  split; [reflexivity|].
  destruct (nothing_captured_without_permission true true true
              [ComponentMounts true; PermissionSettles (Fulfilled status_denied);
               TimerFires; OnScreen PressCapture; OnScreen CameraBecomesReady;
               OnScreen ToggleRemote]
              ltac:(discriminate)) as (Hcapture & _ & Hruns & _).
  split; [exact Hcapture|exact Hruns].
Defined.

(** X2.  In every session from launch, whenever the processing flag is
    up, permission is granted, the camera is ready and at least one run of
    [processImage] has not returned yet. *)
Theorem processing_means_a_run_in_flight
    (ref camera speech : bool) (events : list SessionEvent) :
  let w := world (session_steps (launch ref camera speech) events) in
  isProcessing (state w) = true ->
  hasPermission (state w) = Some true
  /\ cameraReady (state w) = true
  /\ existsb pending (runs w) = true.
Proof.
  intros w Hbusy. subst w.
  destruct (sessions_keep_invariant ref camera speech events) as [_ Hworld].
  destruct (processing_has_a_run _ Hworld Hbusy) as [Hready Hrun].
  split; [|split; assumption].
  destruct (hasPermission _) as [[|]|] eqn:Hperm; [reflexivity| |];
    destruct (nothing_without_permission _ Hworld) as (Hflag & _);
    rewrite ?Hperm; try discriminate; congruence.
Qed.

Lemma processing_means_a_run_in_flight_witness :
  isProcessing (state (world capturing_session)) = true
  /\ hasPermission (state (world capturing_session)) = Some true
  /\ existsb pending (runs (world capturing_session)) = true.
Proof.
  split; [reflexivity|].
  destruct (processing_means_a_run_in_flight true true true
              [ComponentMounts true; PermissionSettles (Fulfilled status_granted);
               TimerFires; OnScreen CameraBecomesReady; OnScreen PressCapture]
              eq_refl) as (Hgranted & _ & Hrun).
  split; [exact Hgranted|exact Hrun].
Defined.

Lemma known_mode_cases (mode : string) :
  mode_is_known mode = true ->
  mode = "read" \/ mode = "navigate" \/ mode = "passive".
Proof.
  unfold mode_is_known, modes. cbn [existsb].
  destruct (String.eqb_spec mode "read"); [tauto|].
  destruct (String.eqb_spec mode "navigate"); [tauto|].
  destruct (String.eqb_spec mode "passive"); [tauto|discriminate].
Qed.

(** X3.  In every session from launch the current mode is one of
    [read], [navigate], [passive]; so on the main screen exactly one of
    the three mode buttons is drawn active, and when the capture button
    shows a text it is the text of that mode. *)
Theorem one_mode_always_active
    (ref camera speech : bool) (events : list SessionEvent) :
  let w := world (session_steps (launch ref camera speech) events) in
  In (currentMode (state w)) ["read"; "navigate"; "passive"]
  /\ match render w with
     | Main view =>
         (read_active view, navigate_active view, passive_active view,
          capture_content view)
         ∈ [(true, false, false, if isProcessing (state w) then Spinner
                                 else Label "Read Document");
            (false, true, false, if isProcessing (state w) then Spinner
                                 else Label "Get Navigation Cues");
            (false, false, true, if isProcessing (state w) then Spinner
                                 else Label "Describe Environment")]
     | _ => True
     end.
Proof.
  intros w. subst w.
  destruct (sessions_keep_invariant ref camera speech events) as [_ Hworld].
  pose proof (known_mode_cases _ (mode_known _ Hworld)) as Hmode.
  set (w := world _) in *. clearbody w.
  split; [cbn [In]; intuition congruence|].
  unfold render. destruct (hasPermission (state w)) as [[|]|]; [|trivial..].
  cbn [read_active navigate_active passive_active capture_content].
  destruct Hmode as [-> | [-> | ->]]; cbn [String.eqb Ascii.eqb Bool.eqb];
    unfold captureButtonText; cbn [String.eqb Ascii.eqb Bool.eqb];
    set_solver.
Qed.

(** X4.  In every session from launch the remote control switch and the
    server status agree: the status is [Running] when the switch is on
    and [Stopped] when it is off.  When the panel under the switch is
    drawn it shows the address 192.168.1.100 and the status [Running],
    never the placeholder [Loading...]. *)
Theorem remote_panel_agrees_with_switch
    (ref camera speech : bool) (events : list SessionEvent) :
  let w := world (session_steps (launch ref camera speech) events) in
  serverStatus (state w)
  = (if remoteControlEnabled (state w) then "Running" else "Stopped")
  /\ match render w with
     | Main view =>
         remote_info view
         = if remote_switch view then Some ("192.168.1.100", "Running") else None
     | _ => True
     end.
Proof.
  intros w. subst w.
  destruct (sessions_keep_invariant ref camera speech events) as [_ Hworld].
  pose proof (remote_enabled_running _ Hworld) as Hon.
  pose proof (remote_disabled_stopped _ Hworld) as Hoff.
  set (w := world _) in *. clearbody w.
  unfold render.
  destruct (remoteControlEnabled (state w)) eqn:Hswitch.
  - destruct (Hon eq_refl) as [Hstatus Hip]. split; [exact Hstatus|].
    destruct (hasPermission (state w)) as [[|]|]; [|trivial..].
    cbn [remote_info remote_switch]. now rewrite ?Hswitch, Hstatus, Hip.
  - split; [exact (Hoff eq_refl)|].
    destruct (hasPermission (state w)) as [[|]|]; [|trivial..].
    cbn [remote_info remote_switch]. now rewrite ?Hswitch.
Qed.

(** X5.  In every session from launch, every call of [Speech.speak] the
    application has made came right after a call of [Speech.stop]: no
    utterance is started over another one. *)
Theorem speech_is_always_cancelled_first
    (ref camera speech : bool) (events : list SessionEvent) :
  cancel_then_speak false
    (trace (world (session_steps (launch ref camera speech) events))) = true.
Proof.
  destruct (sessions_keep_invariant ref camera speech events) as [_ Hworld].
  exact (speech_cancelled_first _ Hworld).
Qed.

End Reachable.

(** ** The permission request *)

Module PermissionFlow.
Import JsString Js App Runtime Mount Session View TraceFacts Reachable.

Lemma after_permission_granted (o : Settlement) :
  resolves_granted o ->
  after_permission o
  = Normal ([setHasPermission true; of_handler (setCurrentMode "passive")],
            granted_message).
Proof.
  intros (fields & -> & Hstatus). cbn [after_permission getProp].
  rewrite Hstatus. reflexivity.
Qed.

Lemma after_permission_refused (o : Settlement) :
  ~ resolves_granted o ->
  after_permission o
  = Normal ([setHasPermission false],
            "Camera permission not granted. Please enable it in settings. ")
  \/ exists error, after_permission o = Throw error.
Proof.
  intros Hnot. destruct o as [cameraStatus|reason]; [|right; now exists reason].
  cbn [after_permission].
  destruct cameraStatus as [| | | | | |fields];
    try (right; eexists; reflexivity); try (left; reflexivity).
  cbn [getProp].
  destruct (fields !! "status") as [status|] eqn:Hstatus; [|left; reflexivity].
  destruct status as [| | | |text| |]; try (left; reflexivity).
  cbn [default from_option mbind completion_bind]. unfold id.
  cbn [strict_eq_string].
  destruct (String.eqb_spec text "granted") as [-> | Hother]; [|left; reflexivity].
  exfalso. apply Hnot. now exists fields.
Qed.

(** X6.  How the permission request decides.  It grants exactly when it
    resolves with an object whose [status] is the string [granted]: then
    [hasPermission] is set to [true], the mode is reset to [passive] and
    the granted message is left for the timer.  Every other settlement (a
    different or missing status, [null], a rejection) sets [hasPermission]
    to [false], changes no mode and leaves for the timer either "Camera
    permission not granted. Please enable it in settings. " or "Error
    requesting permissions: <detail>. Please check app settings.".  Each
    way sets [hasPermission] once and schedules one timer of 500 ms. *)
Theorem permission_decided_by_status (o : Settlement) :
  (resolves_granted o ->
   resume_permission o
   = ([setHasPermission true; of_handler (setCurrentMode "passive");
       setTimeout "Camera and Speech permissions granted. Select a mode and tap the button." 500],
      AwaitingTimer "Camera and Speech permissions granted. Select a mode and tap the button."))
  /\ (~ resolves_granted o ->
      exists permissionMessage,
        resume_permission o
        = ([setHasPermission false; setTimeout permissionMessage 500],
           AwaitingTimer permissionMessage)
        /\ (permissionMessage
            = "Camera permission not granted. Please enable it in settings. "
            \/ exists error,
                 permissionMessage
                 = "Error requesting permissions: " +:+ error_message error
                   +:+ ". Please check app settings.")).
Proof.
  split.
  - intros Hgranted. unfold resume_permission.
    now rewrite (after_permission_granted o Hgranted).
  - intros Hnot. unfold resume_permission.
    destruct (after_permission_refused o Hnot) as [-> | [error ->]].
    + eexists. split; [reflexivity|now left].
    + eexists. split; [reflexivity|right; now exists error].
Qed.

Lemma permission_decided_by_status_witness :
  fst (resume_permission (Fulfilled status_granted))
  = [setHasPermission true; of_handler (setCurrentMode "passive");
     setTimeout "Camera and Speech permissions granted. Select a mode and tap the button." 500]
  /\ exists permissionMessage,
       fst (resume_permission (Fulfilled status_denied))
       = [setHasPermission false; setTimeout permissionMessage 500].
Proof.
  split.
  - destruct (permission_decided_by_status (Fulfilled status_granted)) as [Hyes _].
    rewrite Hyes; [reflexivity|].
    exists {[ "status" := VStr "granted" ]}. split; reflexivity.
  - destruct (permission_decided_by_status (Fulfilled status_denied)) as [_ Hno].
    destruct Hno as (permissionMessage & -> & _).
    + intros (fields & [= <-] & Hstatus). discriminate Hstatus.
    + now exists permissionMessage.
Defined.

(** X7.  What the user hears of the permission request.  When the
    camera module offers the request, nothing is spoken until the timer
    fires and then the outcome is spoken once; it is also the displayed
    message.  When the module does not offer it, permission is refused at
    once and the "Camera module not found" message is spoken twice: by
    the early return and again by the timer of the [finally] block. *)
Theorem permission_outcome_announced
    (ref camera speech requestIsFunction : bool) (o : Settlement) :
  let settled :=
    session_steps (launch ref camera speech)
      [ComponentMounts requestIsFunction; PermissionSettles o] in
  let announced := session_step settled TimerFires in
  mount announced = Announced
  /\ if camera && requestIsFunction
     then utterances (trace (world settled)) = []
          /\ exists permissionMessage,
               snd (resume_permission o) = AwaitingTimer permissionMessage
               /\ utterances (trace (world announced)) = [VStr permissionMessage]
               /\ message (state (world announced)) = VStr permissionMessage
     else hasPermission (state (world settled)) = Some false
          /\ utterances (trace (world announced))
             = [VStr "Camera module not found or not functional. Please ensure all Expo packages are installed correctly.";
                VStr "Camera module not found or not functional. Please ensure all Expo packages are installed correctly."].
Proof.
  cbn zeta. unfold session_steps, launch. cbn [fold_left session_step mount world
    Camera_loaded requestPermissions_start].
  destruct (camera && requestIsFunction).
  - cbn [session_step mount world].
    assert (Hcases :
      exists effects permissionMessage,
        resume_permission o = (effects ++ finally_timer permissionMessage,
                               AwaitingTimer permissionMessage)
        /\ (effects = [setHasPermission true; of_handler (setCurrentMode "passive")]
            \/ effects = [setHasPermission false])).
    { unfold resume_permission.
      destruct (after_permission o) as [[effects permissionMessage]|error] eqn:Hafter.
      - exists effects, permissionMessage. split; [reflexivity|].
        destruct o as [cameraStatus|reason]; [|discriminate].
        cbn [after_permission] in Hafter.
        destruct (getProp cameraStatus "status") as [status|]; [|discriminate].
        cbn [mbind completion_bind] in Hafter.
        destruct (strict_eq_string status "granted" && true);
          injection Hafter as <- _; tauto.
      - eexists _, _. split; [reflexivity|now right]. }
    destruct Hcases as (effects & permissionMessage & -> & Heffects).
    cbn [session_step mount world snd].
    split; [reflexivity|].
    destruct Heffects as [-> | ->];
      (split; [reflexivity|]); exists permissionMessage; repeat split.
  - cbn [session_step mount world]. repeat split.
Qed.

Lemma decided_step (s : Session) (ev : SessionEvent) :
  undecided (mount s) = false ->
  hasPermission (state (world (session_step s ev))) = hasPermission (state (world s))
  /\ undecided (mount (session_step s ev)) = false.
Proof.
  intros Hdecided.
  destruct ev as [requestIsFunction|o| |ev], (mount s) as [| |permissionMessage|] eqn:Hmount;
    try discriminate Hdecided; cbn [session_step]; rewrite ?Hmount;
    cbn [world mount undecided]; try (split; reflexivity);
    split; try reflexivity; apply step_keeps_permission.
Qed.

(** X8.  Once the permission request is over, nothing changes its
    verdict: whatever happens afterwards (presses, remote commands,
    a second settlement of the request, the timer), [hasPermission] keeps
    the value it was given; a refused application stays on the refusal
    screen. *)
Theorem permission_verdict_is_final (s : Session) (more : list SessionEvent) :
  undecided (mount s) = false ->
  hasPermission (state (world (session_steps s more)))
  = hasPermission (state (world s))
  /\ undecided (mount (session_steps s more)) = false.
Proof.
  unfold session_steps. revert s.
  induction more as [|ev later IH]; intros s Hdecided; cbn [fold_left];
    [split; [reflexivity|exact Hdecided]|].
  destruct (decided_step s ev Hdecided) as [Hsame Hstill].
  destruct (IH _ Hstill) as [Hlater Hend].
  split; [now rewrite Hlater|exact Hend].
Qed.

Lemma permission_verdict_is_final_witness :
  render
    (world
       (session_steps refused_session
          [ComponentMounts true; PermissionSettles (Fulfilled status_granted);
           TimerFires; OnScreen (PressMode Read)]))
  = Refused (VStr "Camera permission not granted. Please enable it in settings. ").
Proof.
  pose proof (permission_verdict_is_final refused_session
                [ComponentMounts true; PermissionSettles (Fulfilled status_granted);
                 TimerFires; OnScreen (PressMode Read)] eq_refl) as [Hsame _].
  unfold render. rewrite Hsame. reflexivity.
Defined.

End PermissionFlow.

(** ** Runs of the pipeline among other events *)

Module Runs.
Import JsString Js App Runtime Response Scenario Mount Session View TraceFacts Reachable.

Lemma requests_app (e1 e2 : list Effect) :
  requests (e1 ++ e2) = requests e1 ++ requests e2.
Proof. unfold requests. apply omap_app. Qed.

Lemma selects_mode_quiet (w : World) (ev : Event) :
  selects_mode ev = true ->
  runs (step w ev) = runs w
  /\ requests (trace (step w ev)) = requests (trace w)
  /\ cameraRef_current (step w ev) = cameraRef_current w.
Proof.
  destruct ev as [| |m| | |command|]; try discriminate; intros _; cbn [step].
  - destruct (main_ui (state w)); [|repeat split].
    cbn [perform runs trace cameraRef_current]. rewrite requests_app.
    destruct m; cbn; rewrite app_nil_r; repeat split.
  - cbn [perform runs trace cameraRef_current]. rewrite requests_app.
    destruct (RemoteCommands.handleRemoteCommand_shape (state w) command)
      as [[text ->] | (mode & text & ->)]; cbn; rewrite app_nil_r; repeat split.
Qed.

Lemma selects_mode_quiet_all (w : World) (events : list Event) :
  forallb selects_mode events = true ->
  runs (steps w events) = runs w
  /\ requests (trace (steps w events)) = requests (trace w).
Proof.
  unfold steps. revert w.
  induction events as [|ev later IH]; intros w; cbn [forallb fold_left];
    [repeat split|].
  intros [Hev Hlater]%andb_prop.
  destruct (selects_mode_quiet w ev Hev) as (Hruns & Hrequests & _).
  destruct (IH (step w ev) Hlater) as (-> & ->). now split.
Qed.

(** X9.  The request of a run carries the prompt of the mode that was
    current when the capture button was pressed.  Whatever mode buttons
    are pressed and remote commands handled while the picture is being
    taken, when the picture arrives the one request made is for the
    prompt of the mode at the press, with the [base64] of the picture as
    its data. *)
Theorem request_keeps_mode_of_the_press
    (w : World) (between : list Event) (picture data : jsval) :
  main_ui (state w) = true ->
  capture_disabled w = false ->
  cameraRef_current w = true ->
  forallb selects_mode between = true ->
  getProp picture "base64" = Normal data ->
  let run := length (runs w) in
  let w' := steps w (PressCapture :: between ++ [Settle run (Fulfilled picture)]) in
  requests (trace w')
  = requests (trace w)
    ++ [ {| url := apiUrl; method := "POST"; contentType := "application/json";
            payload_text := getPromptForMode (currentMode (state w));
            payload_mimeType := "image/jpeg";
            payload_data := data |} ]
  /\ runs w' !! run = Some AwaitingFetch.
Proof.
  intros Hui Henabled Href Hbetween Hdata run w'. subst w' run.
  unfold steps. cbn [fold_left]. rewrite fold_left_app. cbn [fold_left].
  change (fold_left step between ?x) with (steps x between).
  assert (Hready : cameraReady (state w) = true).
  { unfold capture_disabled in Henabled.
    destruct (cameraReady (state w)); [reflexivity|discriminate]. }
  assert (Hpress :
    runs (step w PressCapture) = runs w ++ [Capturing (currentMode (state w))]
    /\ requests (trace (step w PressCapture)) = requests (trace w)).
  { cbn [step]. rewrite Hui, Henabled. cbn [andb negb].
    unfold call_processImage, processImage_start. rewrite Hready, Href.
    cbn [negb orb perform with_runs runs trace]. rewrite requests_app.
    cbn. now rewrite app_nil_r. }
  destruct Hpress as [Hruns Hrequests].
  destruct (selects_mode_quiet_all (step w PressCapture) between Hbetween)
    as [Hruns' Hrequests'].
  set (captured := steps (step w PressCapture) between) in *. clearbody captured.
  rewrite Hruns in Hruns'. rewrite Hrequests in Hrequests'.
  assert (Hrun : runs captured !! length (runs w)
                 = Some (Capturing (currentMode (state w)))).
  { rewrite Hruns'. apply list_lookup_middle. reflexivity. }
  cbn [step]. rewrite (Pipeline.settle_lookup _ _ _ _ Hrun).
  cbn [resume try_block]. rewrite Hdata. cbn [fst snd].
  cbn [perform with_runs trace runs]. rewrite requests_app, Hrequests'.
  split; [reflexivity|].
  eapply Pipeline.lookup_after_insert, Hrun.
Qed.

Lemma request_keeps_mode_of_the_press_witness :
  map payload_text
    (requests
       (trace (steps (ready_world "read")
                 [PressCapture; PressMode Navigate; RemoteCommand "passive";
                  Settle 0 (Fulfilled photo)])))
  = [prompt_read].
Proof.
  destruct (request_keeps_mode_of_the_press (ready_world "read")
              [PressMode Navigate; RemoteCommand "passive"] photo
              (VStr "/9j/4AAQSkZJRg==")
              eq_refl eq_refl eq_refl eq_refl eq_refl) as [Hrequests _].
  exact (f_equal (map payload_text) Hrequests).
Defined.

(** X10.  What the capture step accepts.  A picture that is [null] or
    [undefined] ends the run: the failure message is spoken and no request
    is made.  Any other picture goes to the backend: the request is made
    with whatever its [base64] holds, and with no data at all
    ([undefined]) when the picture is an object without that field. *)
Theorem picture_without_data_is_still_sent (mode : string) (picture : jsval) :
  (if nullish picture
   then snd (resume (Capturing mode) (Fulfilled picture)) = Done
        /\ count is_fetch (fst (resume (Capturing mode) (Fulfilled picture))) = 0
        /\ count is_speak (fst (resume (Capturing mode) (Fulfilled picture))) = 1
   else exists data,
          getProp picture "base64" = Normal data
          /\ resume (Capturing mode) (Fulfilled picture)
             = ([fetch (request (getPromptForMode mode) data)], AwaitingFetch))
  /\ (forall fields : gmap string jsval,
        fields !! "base64" = None ->
        requests (fst (resume (Capturing mode) (Fulfilled (VObj fields))))
        = [request (getPromptForMode mode) VUndefined]).
Proof.
  split.
  - destruct picture; cbn [nullish resume try_block getProp];
      try (repeat split; fail);
      eexists; split; reflexivity.
  - intros fields Hmissing. cbn [resume try_block getProp].
    now rewrite Hmissing.
Qed.

Lemma picture_without_data_is_still_sent_witness :
  requests (fst (resume (Capturing "read") (Fulfilled (VObj ∅))))
  = [request prompt_read VUndefined].
Proof.
  destruct (picture_without_data_is_still_sent "read" (VObj ∅)) as [_ Hmissing].
  exact (Hmissing ∅ eq_refl).
Defined.

(** The calls a run makes from a phase on. *)
Lemma drive_calls (ph : Phase) (settlements : list Settlement) :
  let effects := fst (drive ph settlements) in
  count is_capture effects = 0
  /\ match ph with
     | Capturing _ =>
         count is_fetch effects <= 1 /\ count is_json effects <= count is_fetch effects
     | AwaitingFetch => count is_fetch effects = 0 /\ count is_json effects <= 1
     | AwaitingJson | Done => count is_fetch effects = 0 /\ count is_json effects = 0
     end.
Proof.
  cbn zeta. revert ph.
  induction settlements as [|o later IH]; intros ph; cbn [drive].
  - destruct ph; cbn; lia.
  - destruct ph as [mode| | |].
    4: { cbn [resume]. destruct (drive Done later) as [more final] eqn:Hdrive.
         rewrite Pipeline.drive_Done in Hdrive. injection Hdrive as <- <-.
         cbn. lia. }
    all: match goal with
         | |- context [resume ?ph ?o'] =>
             pose proof (Pipeline.resume_cases ph o' ltac:(discriminate)) as Hres;
             destruct (resume ph o') as [effects next]
         end;
         inversion Hres; subst;
         match goal with
         | |- context [drive ?next ?rest] =>
             pose proof (IH next) as Hlater;
             destruct (drive next rest) as [more final] eqn:Hdrive
         end;
         try (rewrite Pipeline.drive_Done in Hdrive; injection Hdrive as <- <-);
         cbn [fst] in *; rewrite !count_app; cbn in *.
    all: lia.
Qed.

(** X11.  One press, one picture, at most one request.  Whatever the
    settlements, a run of [processImage] that got past its guard calls
    [takePictureAsync] exactly once, [fetch] at most once and
    [response.json()] at most once and only after a [fetch]. *)
Theorem run_makes_one_request_at_most
    (s : AppState) (ref : bool) (start : list Effect) (ph : Phase)
    (settlements : list Settlement) :
  processImage_start s ref = (start, Some ph) ->
  let effects := start ++ fst (drive ph settlements) in
  count is_capture effects = 1
  /\ count is_fetch effects <= 1
  /\ count is_json effects <= count is_fetch effects.
Proof.
  intros (_ & _ & -> & ->)%Pipeline.processImage_start_passes effects.
  subst effects. rewrite !count_app.
  pose proof (drive_calls (Capturing (currentMode s)) settlements) as Hcalls.
  cbn zeta in Hcalls.
  set (rest := fst (drive (Capturing (currentMode s)) settlements)) in *.
  clearbody rest. cbn iota in Hcalls. cbn [count is_capture is_fetch is_json]. lia.
Qed.

Lemma run_makes_one_request_at_most_witness :
  let effects :=
    [setIsProcessing true; setMessage (VStr "Analyzing image, please wait...");
     Speech_stop; takePictureAsync]
    ++ fst (drive (Capturing "passive")
              [Fulfilled photo; Fulfilled http_response;
               Fulfilled (response_with_text "Exit sign ahead");
               Fulfilled (response_with_text "Exit sign ahead")]) in
  count is_capture effects = 1 /\ count is_fetch effects <= 1.
Proof.
  destruct (run_makes_one_request_at_most (ready_state "passive") true _ _
              [Fulfilled photo; Fulfilled http_response;
               Fulfilled (response_with_text "Exit sign ahead");
               Fulfilled (response_with_text "Exit sign ahead")] eq_refl)
    as (Hcapture & Hfetch & _).
  split; [exact Hcapture|exact Hfetch].
Defined.

(** X12.  The processing flag is one flag, not a count of runs.  When a
    run ends, by whatever settlement, the flag is down right after, the
    other runs are where they were, and those still in flight go on
    without the flag. *)
Theorem end_of_any_run_clears_the_flag
    (w : World) (run : nat) (ph : Phase) (o : Settlement) :
  runs w !! run = Some ph ->
  pending ph = true ->
  snd (resume ph o) = Done ->
  let w' := step w (Settle run o) in
  isProcessing (state w') = false
  /\ runs w' = <[run := Done]> (runs w)
  /\ (forall other : nat, other <> run -> runs w' !! other = runs w !! other).
Proof.
  intros Hrun Hpending Hdone w'. subst w'. cbn [step].
  rewrite (Pipeline.settle_lookup _ _ _ _ Hrun), Hdone.
  assert (Hph : ph <> Done) by (intros ->; discriminate).
  pose proof (Pipeline.resume_cases ph o Hph) as Hres.
  destruct (resume ph o) as [effects next]. cbn [snd fst] in *. subst next.
  inversion Hres; subst.
  cbn [perform with_runs state runs].
  split; [reflexivity|].
  split; [reflexivity|].
  intros other Hother. now apply list_lookup_insert_ne.
Qed.

Lemma end_of_any_run_clears_the_flag_witness :
  let w' := step two_runs_world (Settle 0 (Rejected network_error)) in
  isProcessing (state two_runs_world) = true
  /\ isProcessing (state w') = false
  /\ runs w' = [Done; Capturing "passive"].
Proof.
  split; [reflexivity|].
  destruct (end_of_any_run_clears_the_flag two_runs_world 0 AwaitingJson
              (Rejected network_error) eq_refl eq_refl eq_refl)
    as (Hflag & Hruns & _).
  split; [exact Hflag|exact Hruns].
Defined.

(** X13.  Stop lets a second run start beside the first.  With the
    camera ready, Stop followed by a press on the capture button starts a
    new run even while runs are in flight: those stay as they were, a
    picture is taken and the flag is up again. *)
Theorem stop_then_capture_starts_another_run (w : World) :
  main_ui (state w) = true ->
  cameraReady (state w) = true ->
  cameraRef_current w = true ->
  Camera_loaded w = true ->
  Speech_loaded w = true ->
  let w' := steps w [PressStop; PressCapture] in
  runs w' = runs w ++ [Capturing (currentMode (state w))]
  /\ isProcessing (state w') = true
  /\ count is_capture (trace w') = S (count is_capture (trace w)).
Proof.
  intros Hui Hready Href Hcamera Hspeech w'. subst w'.
  unfold steps; cbn [fold_left step]. rewrite Hui.
  unfold main_ui, capture_disabled, call_processImage, processImage_start in *.
  cbn [perform onPressStop updateMessage speak app state commit_all fold_left commit
       hasPermission cameraReady isProcessing currentMode
       cameraRef_current Camera_loaded Speech_loaded trace runs].
  rewrite Hready, Href, Hcamera, Hspeech.
  destruct (hasPermission (state w)) as [[|]|]; try discriminate Hui.
  cbn. rewrite !count_app. cbn. repeat split. lia.
Qed.

Lemma stop_then_capture_starts_another_run_witness :
  runs (steps awaiting_result_world [PressStop; PressCapture])
  = [AwaitingJson; Capturing "passive"].
Proof.
  exact (proj1 (stop_then_capture_starts_another_run awaiting_result_world
                  eq_refl eq_refl eq_refl eq_refl eq_refl)).
Defined.

(** X14.  No event of the screen makes the application speak twice: a
    press, a remote command or a settlement adds at most one call of
    [Speech.speak] to the trace. *)
Theorem an_event_speaks_at_most_once (w : World) (ev : Event) :
  count is_speak (trace (step w ev)) <= S (count is_speak (trace w)).
Proof.
  destruct (step_outcome w ev) as (effects & rs & Hout & ->).
  cbn [perform with_runs trace]. rewrite count_app.
  destruct Hout as [| | | |m| | | | | | | |]; try destruct m; cbn; lia.
Qed.

End Runs.


(** ** Modes, labels and the remote control switch *)

Module Controls.
Import JsString Js App Runtime Scenario Mount Session View TraceFacts.

Lemma remote_command_effect (w : World) (command : string) :
  let w' := step w (RemoteCommand command) in
  currentMode (state w')
  = (if sets_mode command then toLowerCase command else currentMode (state w))
  /\ message (state w') = message (state w)
  /\ isProcessing (state w') = isProcessing (state w).
Proof.
  cbn zeta. cbn [step]. unfold handleRemoteCommand, sets_mode, mode_is_known, modes.
  cbn [existsb]. generalize (toLowerCase command) as token. intros token.
  destruct (String.eqb_spec token "speak") as [-> | _]; [repeat split|].
  destruct (String.eqb_spec token "status") as [-> | _]; [repeat split|].
  destruct (String.eqb_spec token "read") as [-> | _]; [repeat split|].
  destruct (String.eqb_spec token "navigate") as [-> | _]; [repeat split|].
  destruct (String.eqb_spec token "passive") as [-> | _]; repeat split.
Qed.

Lemma remote_commands_frame (w : World) (commands : list string) :
  message (state (steps w (map RemoteCommand commands))) = message (state w)
  /\ isProcessing (state (steps w (map RemoteCommand commands)))
     = isProcessing (state w)
  /\ (forallb (fun c => negb (sets_mode c)) commands = true ->
      currentMode (state (steps w (map RemoteCommand commands)))
      = currentMode (state w)).
Proof.
  unfold steps. revert w.
  induction commands as [|c later IH]; intros w; cbn [map fold_left forallb];
    [repeat split|].
  destruct (remote_command_effect w c) as (Hmode & Hmessage & Hflag).
  cbn zeta in *.
  destruct (IH (step w (RemoteCommand c))) as (-> & -> & Hkeep).
  repeat split; try assumption.
  intros [Hc Hlater]%andb_prop. rewrite (Hkeep Hlater), Hmode.
  now destruct (sets_mode c).
Qed.

(** X15.  Remote commands compose by the last writer.  After any
    sequence of remote commands, the mode is the one named by the last
    command of the sequence that names a mode (whatever its case); the
    commands before it do not matter, and neither the displayed message
    nor the processing flag has changed. *)
Theorem remote_commands_last_writer_wins
    (w : World) (before after : list string) (command : string) :
  sets_mode command = true ->
  forallb (fun c => negb (sets_mode c)) after = true ->
  let w' := steps w (map RemoteCommand (before ++ command :: after)) in
  currentMode (state w') = toLowerCase command
  /\ message (state w') = message (state w)
  /\ isProcessing (state w') = isProcessing (state w).
Proof.
  intros Hsets Hafter w'. subst w'.
  destruct (remote_commands_frame w (before ++ command :: after))
    as (Hmessage & Hflag & _).
  split; [|split; assumption].
  rewrite map_app. unfold steps. rewrite fold_left_app. cbn [map fold_left].
  change (fold_left step (map RemoteCommand after) ?x)
    with (steps x (map RemoteCommand after)).
  destruct (remote_commands_frame
              (step (fold_left step (map RemoteCommand before) w)
                 (RemoteCommand command)) after) as (_ & _ & Hkeep).
  rewrite (Hkeep Hafter).
  destruct (remote_command_effect
              (fold_left step (map RemoteCommand before) w) command) as (Hmode & _).
  cbn zeta in Hmode. now rewrite Hmode, Hsets.
Qed.

Lemma remote_commands_last_writer_wins_witness :
  currentMode
    (state (steps (ready_world "passive")
              (map RemoteCommand ["read"; "status"; "NAVIGATE"; "speak"; "banana"])))
  = "navigate".
Proof.
  exact (proj1 (remote_commands_last_writer_wins (ready_world "passive")
                  ["read"; "status"] ["speak"; "banana"] "NAVIGATE"
                  eq_refl eq_refl)).
Defined.

(** X16.  A mode button announces the button to tap next by the text
    that button then shows.  After a press on a mode button, with no run
    in progress, the capture button shows the text of the new mode and
    the displayed message quotes that very text. *)
Theorem mode_button_names_the_capture_text (w : World) (m : Mode) :
  main_ui (state w) = true ->
  isProcessing (state w) = false ->
  exists view text,
    render (step w (PressMode m)) = Main view
    /\ capture_content view = Label text
    /\ message_box view = VStr (mode_button_message m)
    /\ includes (dquote +:+ text +:+ dquote) (mode_button_message m) = true
    /\ text = captureButtonText (mode_token m).
Proof.
  intros Hui Hidle. cbn [step]. rewrite Hui.
  apply Reachable.main_ui_granted in Hui.
  unfold render.
  assert (Hperm : hasPermission (state (perform (onPressMode m) w)) = Some true)
    by (destruct m; exact Hui).
  assert (Hflag : isProcessing (state (perform (onPressMode m) w)) = false)
    by (destruct m; exact Hidle).
  rewrite Hperm. eexists _, _. split; [reflexivity|].
  cbn [capture_content message_box]. rewrite Hflag.
  split; [reflexivity|].
  destruct m; repeat split.
Qed.

Lemma mode_button_names_the_capture_text_witness :
  exists view,
    render (step (ready_world "passive") (PressMode Navigate)) = Main view
    /\ capture_content view = Label "Get Navigation Cues".
Proof.
  destruct (mode_button_names_the_capture_text (ready_world "passive") Navigate
              eq_refl eq_refl) as (view & text & Hrender & Hcontent & _ & _ & ->).
  exists view. split; [exact Hrender|exact Hcontent].
Defined.

(** X17.  The remote control switch.  Switched on, the server status is
    [Running], the address 192.168.1.100 is recorded and the message
    naming http://192.168.1.100:8080 is displayed and spoken.  Switched
    off again, the switch and the status are back to off and [Stopped]
    and "Remote control disabled" is displayed and spoken, but the
    address stays recorded.  Neither press touches the mode, the
    processing flag, the camera or the runs. *)
Theorem remote_switch_on_and_off (w : World) :
  main_ui (state w) = true ->
  remoteControlEnabled (state w) = false ->
  let on := step w ToggleRemote in
  let off := step on ToggleRemote in
  (remoteControlEnabled (state on) = true
   /\ serverStatus (state on) = "Running"
   /\ deviceIP (state on) = "192.168.1.100"
   /\ message (state on)
      = VStr "Remote control enabled. Other devices can send commands to: http://192.168.1.100:8080"
   /\ speaking (trace on) = Some (message (state on)))
  /\ (remoteControlEnabled (state off) = false
      /\ serverStatus (state off) = "Stopped"
      /\ deviceIP (state off) = "192.168.1.100"
      /\ message (state off) = VStr "Remote control disabled"
      /\ speaking (trace off) = Some (VStr "Remote control disabled"))
  /\ (currentMode (state off) = currentMode (state w)
      /\ isProcessing (state off) = isProcessing (state w)
      /\ cameraReady (state off) = cameraReady (state w)
      /\ runs off = runs w
      /\ count is_capture (trace off) = count is_capture (trace w)
      /\ count is_backend_call (trace off) = count is_backend_call (trace w)).
Proof.
  intros Hui Hoff on off. subst off on.
  destruct w as [[permission ready mode msg busy remote status ip] ref camera speech
                 before pending_runs].
  cbn [state main_ui hasPermission remoteControlEnabled] in Hui, Hoff. subst remote.
  destruct permission as [[|]|]; try discriminate Hui.
  cbn [step main_ui state hasPermission toggleRemoteControl remoteControlEnabled
       perform commit_all fold_left commit startServer stopServer updateMessage
       speak app andb trace runs cameraReady currentMode isProcessing message
       serverStatus deviceIP].
  split; [|split].
  - repeat split.
    change (before ++ ?l)
      with (before
            ++ [setRemoteControlEnabled true; setServerStatus "Starting...";
                setDeviceIP "192.168.1.100"; setServerStatus "Running";
                setMessage (VStr "Remote control enabled. Other devices can send commands to: http://192.168.1.100:8080")]
            ++ speak (VStr "Remote control enabled. Other devices can send commands to: http://192.168.1.100:8080")).
    rewrite app_assoc. apply speaking_speak.
  - repeat split.
    change ((before ++ ?l1) ++ ?l2)
      with ((before ++ l1)
            ++ [setServerStatus "Stopped"; setRemoteControlEnabled false;
                setMessage (VStr "Remote control disabled")]
            ++ speak (VStr "Remote control disabled")).
    rewrite (app_assoc (before ++ _)). apply speaking_speak.
  - rewrite !count_app. repeat split; cbn; lia.
Qed.

Lemma remote_switch_on_and_off_witness :
  let on := step (ready_world "passive") ToggleRemote in
  serverStatus (state on) = "Running"
  /\ serverStatus (state (step on ToggleRemote)) = "Stopped"
  /\ deviceIP (state (step on ToggleRemote)) = "192.168.1.100".
Proof.
  destruct (remote_switch_on_and_off (ready_world "passive") eq_refl eq_refl)
    as ((_ & Hrunning & _) & (_ & Hstopped & Hip & _) & _).
  split; [exact Hrunning|]. split; [exact Hstopped|exact Hip].
Defined.

End Controls.
